(** * RNG.js: the Pokédex RNG simulator, capture and flee resolution

    A shallow embedding of [src/pokemonrng/RNG.js].  The script keeps its
    state in module-level variables and drives every action from DOM events
    and [setTimeout] callbacks.  The embedding keeps that shape:

    - [State] is the record of the script's global variables, extended with
      the browser facilities the script talks to: the pending [setTimeout]
      callbacks, [localStorage], the toast element and the log of catalogue
      requests;
    - every handler and every timer callback is a function [State -> State];
      what the browser supplies when a callback runs ([Math.random()],
      [new Date()], a fetch response) is an argument of the function;
    - an uncaught exception ends a callback where it is thrown: the writes
      made before it stay, the rest of the body does not run;
    - [step] dispatches one event, [run] a sequence of events.

    Numbers that hold probabilities are IEEE binary64 values, as in
    JavaScript; counters and item counts are integers.  Writing to the DOM
    (cells, badges, confetti, CSS classes, sounds) changes no variable of
    [State] and is left out of the handlers; what [renderInventory] and
    [renderPokedex] compute before they write (the panel, the listed
    identifiers, the page variable) is embedded as functions of its own.

    Strings are held as UTF-8.  The case mappings [toUpperCase] and
    [toLowerCase] follow the Unicode tables of the browser; they are taken
    from the environment [Env] and nothing is assumed about them.

    [State] gives [pokedex] the type the script means it to have, a table
    of entries.  The import dialog is the one place where the script assigns
    to it a value it has not built itself: whatever [JSON.parse] returns.
    [importPokedex] therefore follows the handler, with [save()],
    [updateStats()] and [renderPokedex()] behind it, on an arbitrary JSON
    value; the events of [step] are those after which [pokedex] still is a
    table. *)

From Stdlib Require Import ZArith String Ascii List Floats.PrimFloat.
From stdpp Require Import base gmap strings list pretty.

Set Warnings "-inexact-float".
Local Open Scope string_scope.
Local Open Scope Z_scope.

(** ** JavaScript helpers *)

(** Truthiness of a string-or-null property: [null], [undefined] and the
    empty string are falsy. *)
Definition truthy (o : option string) : bool :=
  match o with
  | Some v => negb (String.eqb v "")
  | None => false
  end.

(** [a || b] on string-or-null values. *)
Definition js_or (a b : option string) : option string :=
  if truthy a then a else b.

(** [Math.min(a, b)] on two numbers: NaN if either is NaN, and -0 below +0. *)
Definition Math_min (a b : float) : float :=
  if PrimFloat.is_nan a then a
  else if PrimFloat.is_nan b then b
  else if PrimFloat.ltb b a then b
  else if PrimFloat.ltb a b then a
  else if PrimFloat.is_zero a && PrimFloat.get_sign b then b
  else a.

(** [s.includes(sub)]: [sub] occurs somewhere in [s]. *)
Fixpoint includes (s sub : string) : bool :=
  (String.prefix sub s
   || match s with
      | EmptyString => false
      | String _ rest => includes rest sub
      end)%bool.

(** ** Data *)

(** An entry of [pokedex] (line 41: [{id: {id,name,caught,types,is_legendary}}],
    plus the [sprite], [capturedAt] and [shiny] properties written on capture). *)
Record PokeRecord := {
  p_id : Z;
  p_name : string;
  p_types : list string;
  p_caught : bool;
  p_is_legendary : bool;
  p_sprite : option string;
  p_capturedAt : option string;
  p_shiny : bool
}.

(** The object stored in [currentEncounter]. *)
Record Encounter := {
  e_id : Z;
  e_name : string;
  e_sprite : option string;
  e_types : list string;
  e_shiny : bool;
  e_is_legendary : bool
}.

(** The part of a catalogue answer that [encounterRandom] reads. *)
Record ApiPokemon := {
  api_id : Z;
  api_name : string;
  api_front_default : option string;
  api_front_shiny : option string;
  api_types : list string
}.

(** Outcome of the two requests of [encounterRandom]: the creature request
    may fail; the species request is best effort ([None] when it failed). *)
Inductive FetchResult :=
| FetchFailed
| FetchOk (data : ApiPokemon) (species_is_legendary : option bool).

(** A callback handed to [setTimeout] and not yet run. *)
Inductive Task :=
| ResolveCapture (chance : float)  (* tryCatch, line 418 *)
| FinalizeCapture (id : Z)         (* success branch, line 428 *)
| Escape (name : string)           (* failure branch, line 486 *)
| Flee (name : string)             (* runAway, line 517 *)
| NextEncounter                    (* stopProcessing(); encounterRandom(), lines 461 and 522 *)
| AutoEncounter.                   (* encounterRandom(), line 528 *)

(** A value written to [localStorage] (the object that is stringified). *)
Inductive Stored :=
| StoredPokedex (d : gmap Z PokeRecord)
| StoredMeta (caught : nat) (counter : Z)
| StoredInventory (inv : gmap string Z) (counter : Z)
| StoredCounter (counter : Z).

(** The module-level variables of the script and the browser state it uses.
    [_processingTimer] is [true] while the watchdog timeout is armed;
    [toast] lists the messages shown, the latest first; [requests] lists the
    identifiers asked from the catalogue, the latest first. *)
Record State := {
  pokedex : gmap Z PokeRecord;
  inventory : gmap string Z;
  captureCounter : Z;
  currentEncounter : option Encounter;
  isProcessing : bool;
  isFetchingEncounter : bool;
  _processingTimer : bool;
  timers : list (Z * Task);
  localStorage : gmap string Stored;
  toast : list string;
  requests : list Z
}.

(** A value that [JSON.parse] returns.  The properties of an object are
    listed as the engine enumerates them, each key once. *)
#[warnings="-register-all"] Inductive Json :=
| JNull
| JBool (b : bool)
| JNumber (x : float)
| JString (s : string)
| JArray (items : list Json)
| JObject (fields : list (string * Json)).

(** What the page and the browser fix for a session: whether the element
    [poke-image] exists, whether [localStorage.setItem] accepts a write,
    what [JSON.parse] makes of a text ([None]: it throws), and the two case
    mappings of strings, [String.prototype.toUpperCase] and
    [String.prototype.toLowerCase], which follow the Unicode tables of the
    browser. *)
Record Env := {
  pokeImage : bool;
  quota : gmap string Stored -> string -> Stored -> bool;
  JSON_parse : string -> option Json;
  toUpperCase : string -> string;
  toLowerCase : string -> string
}.

(** The number of bytes that hold the first UTF-16 code unit of a string
    whose UTF-8 encoding starts with the byte [c]: a character of the basic
    plane is one code unit and takes one to three bytes; a character outside
    of it takes four bytes and is a surrogate pair, so that its first code
    unit is no character of its own ([0]). *)
Definition firstUnitBytes (c : ascii) : nat :=
  let n := nat_of_ascii c in
  if Nat.ltb n 128 then 1%nat
  else if Nat.ltb n 224 then 2%nat
  else if Nat.ltb n 240 then 3%nat
  else 0%nat.

(** [capitalize(s)]: [s.charAt(0).toUpperCase() + s.slice(1)].  Strings
    are held as UTF-8.  [charAt(0)] of the empty string is the empty string,
    which has no letter to map.  The half of a surrogate pair that
    [charAt(0)] returns for a character outside the basic plane has no case
    mapping, and the concatenation gives [s] back. *)
Definition capitalize (env : Env) (s : string) : string :=
  match s with
  | EmptyString => EmptyString
  | String c _ =>
    match firstUnitBytes c with
    | O => s
    | k => toUpperCase env (substring 0 k s)
           ++ substring k (String.length s - k) s
    end
  end.

(** What the browser supplies to a timer callback: the value of
    [Math.random()], of [Math.floor(Math.random()*allCount)] for a chained
    encounter, and of [(new Date()).toISOString()]. *)
Record Inputs := {
  in_random : float;
  in_roll : Z;
  in_now : string
}.

Definition STORAGE_KEY : string := "pokedex_v1".

(** The state of a freshly loaded page (lines 41-50). *)
Definition initial : State := {|
  pokedex := ∅;
  inventory := <["pokeball" := -1]> (<["greatball" := 2]> (<["ultraball" := 1]> ∅));
  captureCounter := 0;
  currentEncounter := None;
  isProcessing := false;
  isFetchingEncounter := false;
  _processingTimer := false;
  timers := [];
  localStorage := ∅;
  toast := [];
  requests := []
|}.

(** ** Assignments to the global variables *)

Definition set_pokedex (d : gmap Z PokeRecord) (s : State) : State :=
  {| pokedex := d; inventory := inventory s; captureCounter := captureCounter s;
     currentEncounter := currentEncounter s; isProcessing := isProcessing s;
     isFetchingEncounter := isFetchingEncounter s;
     _processingTimer := _processingTimer s; timers := timers s;
     localStorage := localStorage s; toast := toast s; requests := requests s |}.

Definition set_inventory (i : gmap string Z) (s : State) : State :=
  {| pokedex := pokedex s; inventory := i; captureCounter := captureCounter s;
     currentEncounter := currentEncounter s; isProcessing := isProcessing s;
     isFetchingEncounter := isFetchingEncounter s;
     _processingTimer := _processingTimer s; timers := timers s;
     localStorage := localStorage s; toast := toast s; requests := requests s |}.

Definition set_captureCounter (c : Z) (s : State) : State :=
  {| pokedex := pokedex s; inventory := inventory s; captureCounter := c;
     currentEncounter := currentEncounter s; isProcessing := isProcessing s;
     isFetchingEncounter := isFetchingEncounter s;
     _processingTimer := _processingTimer s; timers := timers s;
     localStorage := localStorage s; toast := toast s; requests := requests s |}.

Definition set_currentEncounter (e : option Encounter) (s : State) : State :=
  {| pokedex := pokedex s; inventory := inventory s; captureCounter := captureCounter s;
     currentEncounter := e; isProcessing := isProcessing s;
     isFetchingEncounter := isFetchingEncounter s;
     _processingTimer := _processingTimer s; timers := timers s;
     localStorage := localStorage s; toast := toast s; requests := requests s |}.

Definition set_processing (p t : bool) (s : State) : State :=
  {| pokedex := pokedex s; inventory := inventory s; captureCounter := captureCounter s;
     currentEncounter := currentEncounter s; isProcessing := p;
     isFetchingEncounter := isFetchingEncounter s;
     _processingTimer := t; timers := timers s;
     localStorage := localStorage s; toast := toast s; requests := requests s |}.

Definition set_fetching (f : bool) (rs : list Z) (s : State) : State :=
  {| pokedex := pokedex s; inventory := inventory s; captureCounter := captureCounter s;
     currentEncounter := currentEncounter s; isProcessing := isProcessing s;
     isFetchingEncounter := f;
     _processingTimer := _processingTimer s; timers := timers s;
     localStorage := localStorage s; toast := toast s; requests := rs |}.

Definition set_timers (ts : list (Z * Task)) (s : State) : State :=
  {| pokedex := pokedex s; inventory := inventory s; captureCounter := captureCounter s;
     currentEncounter := currentEncounter s; isProcessing := isProcessing s;
     isFetchingEncounter := isFetchingEncounter s;
     _processingTimer := _processingTimer s; timers := ts;
     localStorage := localStorage s; toast := toast s; requests := requests s |}.

Definition set_localStorage (l : gmap string Stored) (s : State) : State :=
  {| pokedex := pokedex s; inventory := inventory s; captureCounter := captureCounter s;
     currentEncounter := currentEncounter s; isProcessing := isProcessing s;
     isFetchingEncounter := isFetchingEncounter s;
     _processingTimer := _processingTimer s; timers := timers s;
     localStorage := l; toast := toast s; requests := requests s |}.

(** [setToast(msg)]. *)
Definition setToast (msg : string) (s : State) : State :=
  {| pokedex := pokedex s; inventory := inventory s; captureCounter := captureCounter s;
     currentEncounter := currentEncounter s; isProcessing := isProcessing s;
     isFetchingEncounter := isFetchingEncounter s;
     _processingTimer := _processingTimer s; timers := timers s;
     localStorage := localStorage s; toast := msg :: toast s; requests := requests s |}.

(** [setTimeout(task, delay)]: the callback joins the pending ones. *)
Definition setTimeout (task : Task) (delay : Z) (s : State) : State :=
  set_timers (timers s ++ [(delay, task)]) s.

(** ** The processing guard (lines 51-63) *)

(** [startProcessing()]: raises the flag and re-arms the 6000 ms watchdog. *)
Definition startProcessing (s : State) : State := set_processing true true s.

(** [stopProcessing()]: lowers the flag and disarms the watchdog. *)
Definition stopProcessing (s : State) : State := set_processing false false s.

(** The watchdog callback; it only exists while the timer is armed. *)
Definition watchdog (s : State) : State :=
  if _processingTimer s then set_processing false false s else s.

(** ** Persistence (lines 136-182) *)

(** [localStorage.setItem(key, JSON.stringify(value))]: [None] when the
    browser refuses the write and the call throws. *)
Definition setItem (env : Env) (key : string) (value : Stored) (s : State)
  : option State :=
  if quota env (localStorage s) key value
  then Some (set_localStorage (<[key := value]> (localStorage s)) s)
  else None.

(** [localStorage.removeItem(key)]. *)
Definition removeItem (key : string) (s : State) : State :=
  set_localStorage (delete key (localStorage s)) s.

(** The entries of the Pokédex that are marked caught (line 144). *)
Definition caughtOnly (d : gmap Z PokeRecord) : gmap Z PokeRecord :=
  filter (λ kv : Z * PokeRecord, p_caught kv.2 = true) d.

(** [save()]: the whole Pokédex, else the caught entries, else the counts,
    else the stored keys are dropped; the caller never sees an exception. *)
Definition save (env : Env) (s : State) : State :=
  match setItem env STORAGE_KEY (StoredPokedex (pokedex s)) s with
  | Some s1 => s1
  | None =>
    match setItem env STORAGE_KEY (StoredPokedex (caughtOnly (pokedex s))) s with
    | Some s2 =>
      setToast "Espaço de armazenamento cheio — salvando apenas Pokémons capturados" s2
    | None =>
      match setItem env (STORAGE_KEY ++ "_meta")
                    (StoredMeta (size (caughtOnly (pokedex s))) (captureCounter s)) s with
      | Some s3 => setToast "Armazenamento cheio — salvando apenas metadados" s3
      | None =>
        setToast "Erro: armazenamento do navegador cheio. Dados antigos podem ter sido apagados."
                 (removeItem (STORAGE_KEY ++ "_inv") (removeItem STORAGE_KEY s))
      end
    end
  end.

(** [saveInventory()]: the payload [{ inventory, captureCounter }], else the
    counter alone, else a notice. *)
Definition saveInventory (env : Env) (s : State) : State :=
  match setItem env (STORAGE_KEY ++ "_inv")
                (StoredInventory (inventory s) (captureCounter s)) s with
  | Some s1 => s1
  | None =>
    match setItem env (STORAGE_KEY ++ "_inv_small") (StoredCounter (captureCounter s)) s with
    | Some s2 =>
      setToast "Espaço de armazenamento insuficiente para salvar inventário completo" s2
    | None => setToast "Erro ao salvar inventário — armazenamento cheio" s
    end
  end.

(** ** Encounters (lines 317-358) *)

(** [encounterRandom()] up to its first [await]: single flight, then the
    request for the identifier [roll + 1], where [roll] is
    [Math.floor(Math.random()*allCount)]. *)
Definition encounterRandom (roll : Z) (s : State) : State :=
  if isFetchingEncounter s then s
  else set_fetching true ((roll + 1) :: requests s) s.

(** The encounter built from a catalogue answer (lines 326-333);
    [shinyRoll] is [Math.floor(Math.random() * 300)]. *)
Definition makeEncounter (env : Env) (data : ApiPokemon) (species : option bool)
           (shinyRoll : Z) : Encounter :=
  let isShiny := (Z.eqb shinyRoll 0 && truthy (api_front_shiny data))%bool in
  {| e_id := api_id data;
     e_name := capitalize env (api_name data);
     e_sprite := if isShiny then api_front_shiny data else api_front_default data;
     e_types := api_types data;
     e_shiny := isShiny;
     e_is_legendary := match species with Some b => b | None => false end |}.

(** The rest of [encounterRandom()], run when the requests have settled.
    On a page without the element [poke-image], [renderEncounter()] throws
    at line 372, after the encounter and the first shiny notice are written;
    the handler of line 356 then shows the notice of a failed encounter. *)
Definition encounterArrived (env : Env) (res : FetchResult) (shinyRoll : Z) (s : State)
  : State :=
  if negb (isFetchingEncounter s) then s
  else
    match res with
    | FetchFailed =>
      set_fetching false (requests s) (setToast "Erro ao encontrar Pokémon" s)
    | FetchOk data species =>
      let enc := makeEncounter env data species shinyRoll in
      let s1 := set_currentEncounter (Some enc) s in
      let s2 := if e_shiny enc
                then setToast (capitalize env (api_name data) ++ " is shiny! ✨") s1
                else s1 in
      let s3 := if pokeImage env
                then if (e_shiny enc && e_is_legendary enc)%bool
                     then setToast (e_name enc
                                    ++ " é um Lendário Shiny — captura garantida! ✨") s2
                     else s2
                else setToast "Erro ao encontrar Pokémon" s2 in
      set_fetching false (requests s3) s3
    end.

(** ** Capture (lines 388-508) *)

(** [(ballSelect && ballSelect.value) || 'pokeball']; [sel] is [None] when
    the page has no selector. *)
Definition chosenBall (sel : option string) : string :=
  match js_or sel (Some "pokeball") with
  | Some b => b
  | None => "pokeball"
  end.

(** [{ pokeball:1.0, greatball:1.5, ultraball:2.2 }[ball] || 1.0]. *)
Definition ballBonus (ball : string) : float :=
  if String.eqb ball "pokeball" then 1.0%float
  else if String.eqb ball "greatball" then 1.5%float
  else if String.eqb ball "ultraball" then 2.2%float
  else 1.0%float.

Definition base : float := 0.35%float.

(** [pokedex[id] && pokedex[id].caught]. *)
Definition alreadyCaught (d : gmap Z PokeRecord) (id : Z) : bool :=
  match d !! id with
  | Some p => p_caught p
  | None => false
  end.

(** The value of [chance] (lines 398-402). *)
Definition captureChance (d : gmap Z PokeRecord) (enc : Encounter) (ball : string)
  : float :=
  if (e_shiny enc && e_is_legendary enc)%bool then 1.0%float
  else Math_min 0.98%float
         (PrimFloat.add (PrimFloat.mul base (ballBonus ball))
                        (if alreadyCaught d (e_id enc) then (-0.1)%float else 0%float)).

(** [inventory[ball] || 0]. *)
Definition ballCount (inv : gmap string Z) (ball : string) : Z :=
  default 0 (inv !! ball).

(** [tryCatch()], the click handler of the capture button. *)
Definition tryCatch (env : Env) (sel : option string) (s : State) : State :=
  if isProcessing s then s
  else
    match currentEncounter s with
    | None => setToast "Nenhum Pokémon encontrado" s
    | Some enc =>
      let s1 := startProcessing s in
      let ball := chosenBall sel in
      let chance := captureChance (pokedex s1) enc ball in
      if negb (String.eqb ball "pokeball") then
        if Z.leb (ballCount (inventory s1) ball) 0
        then stopProcessing (setToast "Sem bolas desse tipo!" s1)
        else
          let s2 := set_inventory
                      (<[ball := Z.max 0 (ballCount (inventory s1) ball - 1)]> (inventory s1))
                      s1 in
          setTimeout (ResolveCapture chance) 600 (saveInventory env s2)
      else setTimeout (ResolveCapture chance) 600 s1
    end.

(** The callback of line 418.  [r] is [Math.random()].  Reading a property
    of a null [currentEncounter] throws inside the [try]; the handler of
    line 501 then calls [stopProcessing()]. *)
Definition resolveCapture (env : Env) (chance : float) (r : float) (roll : Z)
           (s : State) : State :=
  match currentEncounter s with
  | None => stopProcessing s
  | Some enc =>
    if PrimFloat.ltb r chance
    then setTimeout (FinalizeCapture (e_id enc)) 420 s
    else
      let name := capitalize env
                    (if String.eqb (e_name enc) "" then "Pokémon" else e_name enc) in
      if pokeImage env
      then setTimeout (Escape name) 700 s
      else encounterRandom roll
             (stopProcessing (set_currentEncounter None (setToast "A Pokébola falhou!" s)))
  end.

(** The record written at line 430 when the Pokédex has none for [id]. *)
Definition freshRecord (id : Z) (enc : Encounter) : PokeRecord :=
  {| p_id := id; p_name := e_name enc; p_types := e_types enc; p_caught := false;
     p_is_legendary := false; p_sprite := e_sprite enc; p_capturedAt := None;
     p_shiny := false |}.

Definition with_caught (p : PokeRecord) : PokeRecord :=
  {| p_id := p_id p; p_name := p_name p; p_types := p_types p; p_caught := true;
     p_is_legendary := p_is_legendary p; p_sprite := p_sprite p;
     p_capturedAt := p_capturedAt p; p_shiny := p_shiny p |}.

Definition with_sprite (sp : option string) (p : PokeRecord) : PokeRecord :=
  {| p_id := p_id p; p_name := p_name p; p_types := p_types p; p_caught := p_caught p;
     p_is_legendary := p_is_legendary p; p_sprite := sp;
     p_capturedAt := p_capturedAt p; p_shiny := p_shiny p |}.

(** [if(!p.capturedAt) p.capturedAt = now] (lines 434 and 469). *)
Definition stamp (now : string) (p : PokeRecord) : PokeRecord :=
  if truthy (p_capturedAt p) then p
  else {| p_id := p_id p; p_name := p_name p; p_types := p_types p; p_caught := p_caught p;
          p_is_legendary := p_is_legendary p; p_sprite := p_sprite p;
          p_capturedAt := Some now; p_shiny := p_shiny p |}.

(** [!pokedex[id].caught] read at line 431, after the upsert of line 430. *)
Definition firstCapture (d : gmap Z PokeRecord) (id : Z) : bool :=
  negb (alreadyCaught d id).

(** The bonus block of lines 439-444 (and of line 473). *)
Definition grantBonus (env : Env) (s : State) : State :=
  let s1 := set_captureCounter (captureCounter s + 1) s in
  let s2 := if Z.eqb (Z.rem (captureCounter s1) 10) 0
            then setToast "Bonus: you gained 1 Great Ball!"
                   (set_inventory
                      (<["greatball" := ballCount (inventory s1) "greatball" + 1]> (inventory s1))
                      s1)
            else s1 in
  let s3 := if Z.eqb (Z.rem (captureCounter s2) 100) 0
            then setToast "Big bonus: you gained 1 Ultra Ball!"
                   (set_inventory
                      (<["ultraball" := ballCount (inventory s2) "ultraball" + 1]> (inventory s2))
                      s2)
            else s2 in
  saveInventory env s3.

(** The callback of line 428 (the fallback of lines 465-475 runs the same
    statements).  [id] was read when the capture was resolved; [now] is
    [(new Date()).toISOString()].  With no current encounter the body throws
    at its first read of [currentEncounter]: at line 430 when the record is
    to be created, at line 433 when the stored sprite is falsy, at line 437
    otherwise. *)
Definition finalizeCapture (env : Env) (id : Z) (now : string) (s : State) : State :=
  match currentEncounter s with
  | Some enc =>
    let p0 := match pokedex s !! id with Some p => p | None => freshRecord id enc end in
    let first := negb (p_caught p0) in
    let p1 := with_caught p0 in
    let p2 := with_sprite (js_or (p_sprite p1) (e_sprite enc)) p1 in
    let p3 := stamp now p2 in
    let s1 := save env (set_pokedex (<[id := p3]> (pokedex s)) s) in
    let s2 := setToast (e_name enc ++ " capturado!") s1 in
    let s3 := set_currentEncounter None s2 in
    let s4 := if first then grantBonus env s3 else s3 in
    setTimeout NextEncounter 120 s4
  | None =>
    match pokedex s !! id with
    | None => s
    | Some p0 =>
      let p1 := with_caught p0 in
      if truthy (p_sprite p1)
      then save env (set_pokedex (<[id := stamp now p1]> (pokedex s)) s)
      else set_pokedex (<[id := p1]> (pokedex s)) s
    end
  end.

(** The callback of line 486: the creature escapes. *)
Definition escape (name : string) (roll : Z) (s : State) : State :=
  encounterRandom roll
    (stopProcessing
       (set_currentEncounter None
          (setToast (name ++ " escaped after the Pokéball broke!") s))).

(** The callback of lines 461 and 522. *)
Definition nextEncounter (roll : Z) (s : State) : State :=
  encounterRandom roll (stopProcessing s).

(** ** Flee (lines 510-530) *)

(** [runAway()], the click handler of the run button. *)
Definition runAway (env : Env) (s : State) : State :=
  if isProcessing s then s
  else
    match currentEncounter s with
    | None => setToast "Nenhum Pokémon encontrado" s
    | Some enc =>
      let s1 := startProcessing s in
      let name := capitalize env
                    (if String.eqb (e_name enc) "" then "Pokémon" else e_name enc) in
      if pokeImage env
      then setTimeout (Flee name) 700 s1
      else setTimeout AutoEncounter 300
             (stopProcessing
                (set_currentEncounter None (setToast (name ++ " fled the battle") s1)))
    end.

(** The callback of line 517. *)
Definition flee (name : string) (s : State) : State :=
  setTimeout NextEncounter 300
    (set_currentEncounter None (setToast (name ++ " fled the battle") s)).

(** ** Import and reset (lines 539-552) *)

(** [reader.onload] of [importPokedex()] for the files after which
    [pokedex] still holds a Pokédex: a file that [JSON.parse] rejects
    ([None]), and a file whose document is the Pokédex [data].  Line 545
    assigns the document before any check, so every other file leaves in
    [pokedex] a value that [State] has no place for; [importPokedex] below
    follows the handler on every file. *)
Definition fileRead (env : Env) (doc : option (gmap Z PokeRecord)) (s : State)
  : State :=
  match doc with
  | Some data => setToast "Pokédex importada" (save env (set_pokedex data s))
  | None => setToast "Arquivo inválido" s
  end.

(** [resetPokedex()] once the user has confirmed. *)
Definition resetPokedex (env : Env) (s : State) : State :=
  setToast "Pokédex resetada" (save env (set_pokedex ∅ s)).

(** ** The event loop *)

(** What can happen to the page: a click on one of the buttons, the end of
    the catalogue requests of [encounterRandom], a pending timer (by its
    position in [timers]) or the watchdog running, a file read by the import
    dialog (one that does not parse, or one that holds a Pokédex), a
    confirmed reset. *)
Inductive Event :=
| ClickEncounter (roll : Z)
| ClickCatch (sel : option string)
| ClickRun
| Fetched (res : FetchResult) (shinyRoll : Z)
| Fire (n : nat) (i : Inputs)
| WatchdogFires
| FileRead (doc : option (gmap Z PokeRecord))
| ConfirmReset.

(** Runs one timer callback. *)
Definition runTask (env : Env) (t : Task) (i : Inputs) (s : State) : State :=
  match t with
  | ResolveCapture chance => resolveCapture env chance (in_random i) (in_roll i) s
  | FinalizeCapture id => finalizeCapture env id (in_now i) s
  | Escape name => escape name (in_roll i) s
  | Flee name => flee name s
  | NextEncounter => nextEncounter (in_roll i) s
  | AutoEncounter => encounterRandom (in_roll i) s
  end.

(** The pending timers once the one at position [n] has left the queue. *)
Definition dequeue (n : nat) (ts : list (Z * Task)) : list (Z * Task) :=
  take n ts ++ drop (S n) ts.

Definition step (env : Env) (ev : Event) (s : State) : State :=
  match ev with
  | ClickEncounter roll => encounterRandom roll s
  | ClickCatch sel => tryCatch env sel s
  | ClickRun => runAway env s
  | Fetched res shinyRoll => encounterArrived env res shinyRoll s
  | Fire n i =>
    match timers s !! n with
    | Some (_, t) => runTask env t i (set_timers (dequeue n (timers s)) s)
    | None => s
    end
  | WatchdogFires => watchdog s
  | FileRead doc => fileRead env doc s
  | ConfirmReset => resetPokedex env s
  end.

Fixpoint run (env : Env) (evs : list Event) (s : State) : State :=
  match evs with
  | [] => s
  | ev :: rest => run env rest (step env ev s)
  end.

(** ** The probability as the specification words it

    Section 4.2: a fixed base probability, scaled by the multiplier of the
    item type (A: 1.0, B: 1.5, C: 2.2), a fixed penalty when the creature was
    captured before, the result clamped to at most 0.98. *)

Inductive ItemType := ItemA | ItemB | ItemC.

(** The names the script gives the three item types (line 395). *)
Definition itemName (t : ItemType) : string :=
  match t with
  | ItemA => "pokeball"
  | ItemB => "greatball"
  | ItemC => "ultraball"
  end.

Definition specMultiplier (t : ItemType) : float :=
  match t with
  | ItemA => 1.0%float
  | ItemB => 1.5%float
  | ItemC => 2.2%float
  end.

Definition specChance (multiplier : float) (capturedBefore : bool) : float :=
  let p := PrimFloat.add (PrimFloat.mul 0.35%float multiplier)
                         (if capturedBefore then (-0.1)%float else 0%float) in
  if PrimFloat.leb p 0.98%float then p else 0.98%float.

(** ** Predicates used by the statements *)

(** The chosen item can be thrown: it is the unlimited default type, or its
    count is positive (lines 405-406). *)
Definition ballAvailable (inv : gmap string Z) (ball : string) : bool :=
  (String.eqb ball "pokeball" || Z.ltb 0 (ballCount inv ball))%bool.

(** The entry that a completed capture leaves for [id]. *)
Definition capturedRecord (now : string) (id : Z) (enc : Encounter)
           (d : gmap Z PokeRecord) : PokeRecord :=
  let p0 := match d !! id with Some p => p | None => freshRecord id enc end in
  stamp now (with_sprite (js_or (p_sprite p0) (e_sprite enc)) (with_caught p0)).

(** The inventory after the bonus block of lines 441-442, for the new value
    [c] of the capture counter. *)
Definition bonusInventory (c : Z) (inv : gmap string Z) : gmap string Z :=
  let inv1 := if Z.eqb (Z.rem c 10) 0
              then <["greatball" := ballCount inv "greatball" + 1]> inv
              else inv in
  if Z.eqb (Z.rem c 100) 0
  then <["ultraball" := ballCount inv1 "ultraball" + 1]> inv1
  else inv1.

(** Every count of a finite item type is at least zero. *)
Definition finiteCountsNonNegative (inv : gmap string Z) : Prop :=
  map_Forall (λ (k : string) (v : Z), k ≠ "pokeball" → 0 ≤ v) inv.

(** [inv'] keeps the invariant of [inv]: finite counts stay at or above
    zero, and the entry of the unlimited type is the same. *)
Definition keepsCounts (inv inv' : gmap string Z) : Prop :=
  (finiteCountsNonNegative inv → finiteCountsNonNegative inv')
  ∧ inv' !! "pokeball" = inv !! "pokeball".

(** [capturedAt] of the entry [id], [None] when there is no entry. *)
Definition capturedAtOf (d : gmap Z PokeRecord) (id : Z) : option string :=
  match d !! id with
  | Some p => p_capturedAt p
  | None => None
  end.

(** The events of the capture and flee resolution: every event except the
    two that replace the whole Pokédex (import and reset). *)
Definition resolverEvent (ev : Event) : bool :=
  match ev with
  | FileRead _ | ConfirmReset => false
  | _ => true
  end.

(** A browser whose storage accepts every write. *)
Definition roomy (env : Env) : Prop :=
  ∀ (st : gmap string Stored) (k : string) (v : Stored), quota env st k v = true.

(** The case mappings on the letters of ASCII, where every browser agrees
    with them; the names of the examples have no other letters. *)
Definition asciiUpperChar (c : ascii) : ascii :=
  let n := nat_of_ascii c in
  if (Nat.leb 97 n && Nat.leb n 122)%bool then ascii_of_nat (n - 32) else c.

Definition asciiLowerChar (c : ascii) : ascii :=
  let n := nat_of_ascii c in
  if (Nat.leb 65 n && Nat.leb n 90)%bool then ascii_of_nat (n + 32) else c.

Fixpoint mapChars (f : ascii → ascii) (s : string) : string :=
  match s with
  | EmptyString => EmptyString
  | String c rest => String (f c) (mapChars f rest)
  end.

Definition asciiUpper : string → string := mapChars asciiUpperChar.
Definition asciiLower : string → string := mapChars asciiLowerChar.

(** A session used by the examples: the page has its image element, the
    storage accepts every write and no file parses. *)
Definition demoEnv : Env :=
  {| pokeImage := true; quota := λ _ _ _, true; JSON_parse := λ _, None;
     toUpperCase := asciiUpper; toLowerCase := asciiLower |}.

Definition demoEncounter (shiny legendary : bool) : Encounter :=
  {| e_id := 150; e_name := "Mewtwo"; e_sprite := Some "mewtwo.png";
     e_types := ["psychic"]; e_shiny := shiny; e_is_legendary := legendary |}.

(** The page after a first encounter has arrived. *)
Definition demoState (shiny legendary : bool) : State :=
  set_currentEncounter (Some (demoEncounter shiny legendary)) initial.

Definition demoInputs (r : float) : Inputs :=
  {| in_random := r; in_roll := 24; in_now := "2024-05-01T10:00:00.000Z" |}.

(** The page with an encounter and [c] captures counted so far. *)
Definition demoStateAt (c : Z) : State :=
  set_captureCounter c (demoState false false).

(** Three attempts with great balls on the same encounter, the guard being
    released by the watchdog in between: the third one finds none left. *)
Definition demoThrows : list Event :=
  [ClickCatch (Some "greatball"); WatchdogFires;
   ClickCatch (Some "greatball"); WatchdogFires;
   ClickCatch (Some "greatball")].

(** The catalogue answer for the creature of the examples. *)
Definition demoAnswer : ApiPokemon :=
  {| api_id := 150; api_name := "mewtwo"; api_front_default := Some "mewtwo.png";
     api_front_shiny := Some "mewtwo-shiny.png"; api_types := ["psychic"] |}.

(** After a capture: the chained encounter is requested and arrives, the
    same creature again, and a second attempt is resolved with a low draw. *)
Definition demoRecapture : list Event :=
  [Fire 0 (demoInputs 0.5%float); Fetched (FetchOk demoAnswer (Some true)) 7;
   ClickCatch None; Fire 0 (demoInputs 0.1%float)].

(** [n] completed captures of the creatures [id], [id + 1], ... in a row. *)
Fixpoint captureMany (n : nat) (id : Z) (s : State) : State :=
  match n with
  | O => s
  | S k =>
    captureMany k (id + 1)
      (finalizeCapture demoEnv id "2024-05-01T10:00:00.000Z"
         (set_currentEncounter (Some (demoEncounter false false)) s))
  end.

(** ** Start-up: what a reload reads back (lines 65-70 and 184-202) *)

(** The page after a reload: the variables are back at their initial
    values, the storage is the one the previous session left. *)
Definition reloaded (s : State) : State :=
  set_localStorage (localStorage s) initial.

(** The first lines of [init()]: [JSON.parse] of the value stored under
    [STORAGE_KEY] becomes the Pokédex.  The storage of the model holds the
    objects the script stringified, so the text always parses; [None] stands
    for a stored object that is no Pokédex, which the events of [step] never
    write under this key. *)
Definition loadPokedex (s : State) : option State :=
  match localStorage s !! STORAGE_KEY with
  | None => Some s
  | Some (StoredPokedex d) => Some (set_pokedex d s)
  | Some _ => None
  end.

(** The object read by [loadInventory()], in the two shapes it tells apart:
    the payload [{ inventory, captureCounter }], or a plain object of counts
    (the old format). *)
Inductive InventoryData :=
| NewFormat (inv : gmap string Z) (counter : Z)
| OldFormat (inv : gmap string Z).

(** A stored object as [loadInventory()] reads it: an object without an
    [inventory] property is taken for the old format, its properties being
    the counts.  A stored Pokédex has records for properties and is outside
    what the inventory can hold. *)
Definition asInventoryData (v : Stored) : option InventoryData :=
  match v with
  | StoredInventory inv c => Some (NewFormat inv c)
  | StoredCounter c => Some (OldFormat {["captureCounter" := c]})
  | StoredMeta n c =>
    Some (OldFormat (<["caught" := Z.of_nat n]> {["captureCounter" := c]}))
  | StoredPokedex _ => None
  end.

(** [loadInventory()]: the stored counts are spread over the current ones,
    and [data.captureCounter || captureCounter] keeps the current counter
    when the stored one is zero. *)
Definition loadInventory (s : State) : option State :=
  match localStorage s !! (STORAGE_KEY ++ "_inv") with
  | None => Some s
  | Some v =>
    match asInventoryData v with
    | Some (NewFormat inv c) =>
      Some (set_captureCounter (if Z.eqb c 0 then captureCounter s else c)
              (set_inventory (inv ∪ inventory s) s))
    | Some (OldFormat inv) => Some (set_inventory (inv ∪ inventory s) s)
    | None => None
    end
  end.

(** ** The inventory panel (lines 204-218) *)

(** What [renderInventory()] writes to the page: the three counts as text,
    the [aria-disabled] attribute of the two finite items, and whether the
    badge of the unlimited item is shown. *)
Record InventoryView := {
  count_pokeball : string;
  count_greatball : string;
  count_ultraball : string;
  greatball_disabled : bool;
  ultraball_disabled : bool;
  infinite_badge : bool
}.

Definition renderInventory (inv : gmap string Z) : InventoryView :=
  {| count_pokeball :=
       if Z.eqb (ballCount inv "pokeball") (-1) then "∞"
       else pretty (ballCount inv "pokeball");
     count_greatball := pretty (ballCount inv "greatball");
     count_ultraball := pretty (ballCount inv "ultraball");
     greatball_disabled := Z.leb (ballCount inv "greatball") 0;
     ultraball_disabled := Z.leb (ballCount inv "ultraball") 0;
     infinite_badge := Z.eqb (ballCount inv "pokeball") (-1) |}.

(** ** The statistics (lines 220-224) *)

(** [Object.values(pokedex).filter(p=>p.caught).length]. *)
Definition caughtCount (d : gmap Z PokeRecord) : nat := size (caughtOnly d).

(** [Object.values(pokedex).filter(p=>p.is_legendary && p.caught).length]. *)
Definition legendaryCount (d : gmap Z PokeRecord) : nat :=
  size (filter (λ kv : Z * PokeRecord,
                  (p_is_legendary kv.2 && p_caught kv.2)%bool = true) d).

(** ** The detail dialog (lines 286-297) *)

(** The entry [showPokemon(id)] writes once the creature request has
    settled (line 291). *)
Definition shownRecord (env : Env) (data : ApiPokemon) : PokeRecord :=
  {| p_id := api_id data; p_name := capitalize env (api_name data);
     p_types := api_types data; p_caught := false; p_is_legendary := false;
     p_sprite := None; p_capturedAt := None; p_shiny := false |}.

Definition with_legendary (b : bool) (p : PokeRecord) : PokeRecord :=
  {| p_id := p_id p; p_name := p_name p; p_types := p_types p; p_caught := p_caught p;
     p_is_legendary := b; p_sprite := p_sprite p;
     p_capturedAt := p_capturedAt p; p_shiny := p_shiny p |}.

(** [showPokemon(id)] up to its first [await]: the catalogue is asked only
    when the Pokédex has no entry for [id]. *)
Definition showNeedsFetch (id : Z) (s : State) : bool :=
  match pokedex s !! id with
  | Some _ => false
  | None => true
  end.

(** The continuation after [await fetchPokemon(id)]: [None] when the request
    failed. *)
Definition showArrived (env : Env) (id : Z) (data : option ApiPokemon) (s : State)
  : State :=
  match data with
  | None => setToast "Erro ao carregar Pokémon" s
  | Some d => set_pokedex (<[id := shownRecord env d]> (pokedex s)) s
  end.

(** The continuation after the species request: [None] when it failed.
    Line 294 reads [pokedex[id]] again; should the entry be gone by then the
    read throws and the handler of line 296 shows the same notice. *)
Definition showSpeciesArrived (env : Env) (id : Z) (species : option bool) (s : State)
  : State :=
  match species, pokedex s !! id with
  | Some b, Some p => save env (set_pokedex (<[id := with_legendary b p]> (pokedex s)) s)
  | _, _ => setToast "Erro ao carregar Pokémon" s
  end.

(** ** The button for three encounters (line 89) *)

(** [encounterRandom()] now, and again after 250 ms and 500 ms. *)
Definition clickRandom3 (roll : Z) (s : State) : State :=
  setTimeout AutoEncounter 500 (setTimeout AutoEncounter 250 (encounterRandom roll s)).

(** The page once the demonstration creature has been captured. *)
Definition scenarioCaught : State :=
  finalizeCapture demoEnv 150 "2024-05-01T10:00:00.000Z" (demoState false false).

(** ** The grid (lines 237-266, and the page buttons of lines 101-106) *)

(** [l.slice(start, end)]: a negative index counts from the end, and both
    are clamped to the list. *)
Definition jsSlice {A} (l : list A) (start stop : Z) : list A :=
  let len := Z.of_nat (length l) in
  let k := if Z.ltb start 0 then Z.max (len + start) 0 else Z.min start len in
  let final := if Z.ltb stop 0 then Z.max (len + stop) 0 else Z.min stop len in
  take (Z.to_nat (final - k)) (drop (Z.to_nat k) l).

(** [Math.ceil(a / b)] for integers, [b] not zero.  (The script divides
    doubles; for the list lengths it has, at most 1008, the quotient of two
    integers has the ceiling of the exact one.) *)
Definition ceilDiv (a b : Z) : Z := - ((- a) `div` b).

(** What [renderPokedex()] reads from the page: the value of the page size
    selector as [parseInt] read it ([None] for NaN), the search text after
    [trim().toLowerCase()], and the selected type. *)
Record GridInputs := {
  pageSizeValue : option Z;
  query : string;
  typeValue : string
}.

(** [parseInt(pageSizeEl.value,10)||48]. *)
Definition pageSizeOf (inp : GridInputs) : Z :=
  match pageSizeValue inp with
  | Some z => if Z.eqb z 0 then 48 else z
  | None => 48
  end.

(** The test of the search filter (lines 247-249). *)
Definition matchesQuery (env : Env) (d : gmap Z PokeRecord) (q : string) (id : Z)
  : bool :=
  match d !! id with
  | Some p =>
    if String.eqb (p_name p) ""
    then includes (pretty id) q
    else (includes (toLowerCase env (p_name p)) q || String.eqb (pretty id) q)%bool
  | None => includes (pretty id) q
  end.

(** The test of the type filter (lines 254-256). *)
Definition matchesType (d : gmap Z PokeRecord) (ty : string) (id : Z) : bool :=
  match d !! id with
  | Some p => bool_decide (ty ∈ p_types p)
  | None => false
  end.

(** The identifiers the grid lists over all its pages (lines 243-258). *)
Definition listedIds (env : Env) (allCount : Z) (d : gmap Z PokeRecord)
           (inp : GridInputs) : list Z :=
  let ids := seqZ 1 allCount in
  let ids1 := if String.eqb (query inp) "" then ids
              else List.filter (matchesQuery env d (query inp)) ids in
  if String.eqb (typeValue inp) "" then ids1
  else List.filter (matchesType d (typeValue inp)) ids1.

(** [Math.max(1, Math.ceil(ids.length / pageSize))]. *)
Definition totalPagesOf (ids : list Z) (pageSize : Z) : Z :=
  Z.max 1 (ceilDiv (Z.of_nat (length ids)) pageSize).

(** The cells of page [page] (lines 265-266). *)
Definition pageSlice (ids : list Z) (pageSize page : Z) : list Z :=
  jsSlice ids ((page - 1) * pageSize) ((page - 1) * pageSize + pageSize).

(** What [renderPokedex()] computes. *)
Record GridView := {
  view_page : Z;
  view_totalPages : Z;
  view_cells : list Z
}.

(** [renderPokedex()], for the value [page] of the page variable. *)
Definition renderPokedex (env : Env) (allCount : Z) (d : gmap Z PokeRecord)
           (inp : GridInputs) (page : Z) : GridView :=
  let pageSize := pageSizeOf inp in
  let ids := listedIds env allCount d inp in
  let totalPages := totalPagesOf ids pageSize in
  let page' := if Z.ltb totalPages page then totalPages else page in
  {| view_page := page'; view_totalPages := totalPages;
     view_cells := pageSlice ids pageSize page' |}.

(** The handlers that move the page variable before they render again. *)
Inductive GridAction :=
| NextPage     (* page++ *)
| PrevPage     (* page = Math.max(1,page-1) *)
| FirstPage.   (* page = 1: page size, search text or type changed *)

Definition applyGridAction (a : GridAction) (page : Z) : Z :=
  match a with
  | NextPage => page + 1
  | PrevPage => Z.max 1 (page - 1)
  | FirstPage => 1
  end.

(** A sequence of actions on the grid, each with what the page shows in its
    inputs at that moment; the result is the page variable. *)
Fixpoint runGrid (env : Env) (allCount : Z) (d : gmap Z PokeRecord)
         (acts : list (GridAction * GridInputs)) (page : Z) : Z :=
  match acts with
  | [] => page
  | (a, inp) :: rest =>
    runGrid env allCount d rest
            (view_page (renderPokedex env allCount d inp (applyGridAction a page)))
  end.

(** The inputs of the examples: 48 cells a page, no search, no type. *)
Definition demoGrid : GridInputs :=
  {| pageSizeValue := Some 48; query := ""; typeValue := "" |}.

(** ** Import of any file (lines 539-550)

    [JSON.parse] accepts documents that are no Pokédex, and line 545 assigns
    what it returns to [pokedex] before anything looks at it.  What [save()],
    [updateStats()] and [renderPokedex()] then do is followed here on an
    arbitrary JSON value.  The handler writes the variable [pokedex], the
    storage and the toast; it reads the capture counter and what the grid
    reads from the page; the other variables of [State] are not touched. *)

(** Truthiness of a JSON value. *)
Definition jsTruthy (v : Json) : bool :=
  match v with
  | JNull => false
  | JBool b => b
  | JNumber x => negb (PrimFloat.is_zero x || PrimFloat.is_nan x)
  | JString s => negb (String.eqb s "")
  | JArray _ | JObject _ => true
  end.

(** Truthiness of what a property read returns, [None] being [undefined]. *)
Definition jsTruthyProp (o : option Json) : bool :=
  match o with
  | Some v => jsTruthy v
  | None => false
  end.

Definition isNull (v : Json) : bool :=
  match v with
  | JNull => true
  | _ => false
  end.

(** [v.k] for a value [v] that is not null and a key [k] that is the
    decimal form of a number or one of the names the script reads from an
    entry ([caught], [name], [types]): an object has the properties of the
    document, and inherits none under these keys; an array, a string, a
    number or a boolean has no property of these names ([entryAt] has the
    numbers). *)
Definition property (v : Json) (k : string) : option Json :=
  match v with
  | JObject fields => snd <$> List.find (λ kv : string * Json, String.eqb kv.1 k) fields
  | _ => None
  end.

(** [pokedex[id]] for the value [v] of [pokedex] and a number [id] of the
    grid: the outer [None] is the TypeError of reading a property of [null].
    An array is indexed by position, and so is a string, by code unit.  (The
    model counts bytes, which is the same on ASCII text.  A character of a
    string is truthy and has none of the properties the script reads, so
    that every test made on it has the outcome it has on [undefined].) *)
Definition entryAt (v : Json) (id : Z) : option (option Json) :=
  match v with
  | JNull => None
  | JObject _ => Some (property v (pretty id))
  | JArray items => Some (items !! Z.to_nat id)
  | JString s => Some ((λ c, JString (String c EmptyString)) <$> String.get (Z.to_nat id) s)
  | JBool _ | JNumber _ => Some None
  end.

(** [Object.entries(v)]: [None] is the TypeError on [null].  The entries
    of a string are its characters, none of which is null or has a property
    [caught]. *)
Definition objectEntries (v : Json) : option (list (string * Json)) :=
  match v with
  | JNull => None
  | JObject fields => Some fields
  | JArray items => Some (imap (λ i x, (pretty (Z.of_nat i), x)) items)
  | JString s =>
    Some (imap (λ i c, (pretty (Z.of_nat i), JString (String c EmptyString)))
               (list_ascii_of_string s))
  | JBool _ | JNumber _ => Some []
  end.

(** [Object.values(v)]. *)
Definition objectValues (v : Json) : option (list Json) :=
  map snd <$> objectEntries v.

(** Whether [updateStats()] throws while [pokedex] holds [v]: at
    [Object.values(pokedex)] when [v] is null, else in the callback
    [p=>p.caught] of line 221 at the first value that is null.  What follows
    line 222 reads no property of an entry, and the writes to the progress
    bar have a handler of their own. *)
Definition updateStatsThrows (v : Json) : bool :=
  match objectValues v with
  | None => true
  | Some ps => existsb isNull ps
  end.

(** [Object.fromEntries(Object.entries(v).filter(([k,v])=>v && v.caught))]
    (line 144). *)
Definition compactOf (es : list (string * Json)) : Json :=
  JObject (List.filter (λ kv : string * Json,
                          (jsTruthy kv.2 && jsTruthyProp (property kv.2 "caught"))%bool) es).

(** [Object.values(v).filter(p=>p.caught).length] for values without a
    null among them (line 152). *)
Definition caughtValues (ps : list Json) : nat :=
  length (List.filter (λ p, jsTruthyProp (property p "caught")) ps).

(** What a key of the storage holds: an object the script stringified from
    its typed variables, or the text of a JSON value. *)
Inductive Slot :=
| Typed (v : Stored)
| Document (v : Json).

(** What the handler of the import reads besides the file and the
    variables of [State]: whether [localStorage.setItem] accepts a write,
    now that a key may hold any JSON text, the size of the catalogue, what
    the grid reads from the page, and the page variable. *)
Record ImportContext := {
  room : gmap string Slot -> string -> Slot -> bool;
  grid_allCount : Z;
  grid_inputs : GridInputs;
  grid_page : Z
}.

(** The last resort of [save()] (lines 156-159). *)
Definition saveLastResort (st : gmap string Slot) (toasts : list string)
  : gmap string Slot * list string :=
  (delete (STORAGE_KEY ++ "_inv") (delete STORAGE_KEY st),
   "Erro: armazenamento do navegador cheio. Dados antigos podem ter sido apagados."
     :: toasts).

(** The third level of [save()] (lines 150-154). *)
Definition saveMeta (ctx : ImportContext) (v : Json) (counter : Z)
           (st : gmap string Slot) (toasts : list string)
  : gmap string Slot * list string :=
  match objectValues v with
  | None => saveLastResort st toasts
  | Some ps =>
    if existsb isNull ps then saveLastResort st toasts
    else
      let meta := Typed (StoredMeta (caughtValues ps) counter) in
      if room ctx st (STORAGE_KEY ++ "_meta") meta
      then (<[STORAGE_KEY ++ "_meta" := meta]> st,
            "Armazenamento cheio — salvando apenas metadados" :: toasts)
      else saveLastResort st toasts
  end.

(** The second level of [save()] (lines 142-147). *)
Definition saveCompact (ctx : ImportContext) (v : Json) (counter : Z)
           (st : gmap string Slot) (toasts : list string)
  : gmap string Slot * list string :=
  match objectEntries v with
  | None => saveMeta ctx v counter st toasts
  | Some es =>
    let compact := Document (compactOf es) in
    if room ctx st STORAGE_KEY compact
    then
      let st1 := <[STORAGE_KEY := compact]> st in
      if updateStatsThrows v then saveMeta ctx v counter st1 toasts
      else (st1,
            "Espaço de armazenamento cheio — salvando apenas Pokémons capturados"
              :: toasts)
    else saveMeta ctx v counter st toasts
  end.

(** [save()] while [pokedex] holds [v] (lines 136-163): a level is left
    for the next one when its write is refused, and also when the write went
    through and [updateStats()] threw after it. *)
Definition saveValue (ctx : ImportContext) (v : Json) (counter : Z)
           (st : gmap string Slot) (toasts : list string)
  : gmap string Slot * list string :=
  if room ctx st STORAGE_KEY (Document v)
  then
    let st1 := <[STORAGE_KEY := Document v]> st in
    if updateStatsThrows v then saveCompact ctx v counter st1 toasts
    else (st1, toasts)
  else saveCompact ctx v counter st toasts.

(** The callback of the search filter (lines 246-250) on the value [v]:
    [None] when it throws, on [pokedex[id]] or on calling [toLowerCase] of a
    truthy name that is no string. *)
Definition searchTest (env : Env) (v : Json) (q : string) (id : Z) : option bool :=
  match entryAt v id with
  | None => None
  | Some (Some p) =>
    if jsTruthy p then
      match property p "name" with
      | Some name =>
        if jsTruthy name then
          match name with
          | JString n =>
            Some (includes (toLowerCase env n) q || String.eqb (pretty id) q)%bool
          | _ => None
          end
        else Some (includes (pretty id) q)
      | None => Some (includes (pretty id) q)
      end
    else Some (includes (pretty id) q)
  | Some None => Some (includes (pretty id) q)
  end.

(** The callback of the type filter (lines 253-257): [None] when it throws,
    on [pokedex[id]] or on calling [includes] of a truthy [types] that is
    neither an array nor a string. *)
Definition typeTest (v : Json) (ty : string) (id : Z) : option bool :=
  match entryAt v id with
  | None => None
  | Some (Some p) =>
    if jsTruthy p then
      match property p "types" with
      | Some types =>
        if jsTruthy types then
          match types with
          | JString t => Some (includes t ty)
          | JArray items =>
            Some (existsb (λ x, match x with
                                | JString t => String.eqb t ty
                                | _ => false
                                end) items)
          | _ => None
          end
        else Some false
      | None => Some false
      end
    else Some false
  | Some None => Some false
  end.

(** [ids.filter(test)] for a callback that may throw. *)
Fixpoint filterThrowing (test : Z → option bool) (ids : list Z) : option (list Z) :=
  match ids with
  | [] => Some []
  | id :: rest =>
    match test id with
    | None => None
    | Some b =>
      match filterThrowing test rest with
      | None => None
      | Some kept => Some (if b then id :: kept else kept)
      end
    end
  end.

(** Whether [renderPokedex()] throws while [pokedex] holds [v]: in one of
    the two filters, or at line 272 on the first cell of the page when [v] is
    null.  Building a cell reads properties of a truthy entry only, and
    nothing it does with them throws. *)
Definition renderPokedexThrows (env : Env) (ctx : ImportContext) (v : Json) : bool :=
  let inp := grid_inputs ctx in
  let ids := seqZ 1 (grid_allCount ctx) in
  match (if String.eqb (query inp) "" then Some ids
         else filterThrowing (searchTest env v (query inp)) ids) with
  | None => true
  | Some ids1 =>
    match (if String.eqb (typeValue inp) "" then Some ids1
           else filterThrowing (typeTest v (typeValue inp)) ids1) with
    | None => true
    | Some ids2 =>
      let pageSize := pageSizeOf inp in
      let totalPages := totalPagesOf ids2 pageSize in
      let page' := if Z.ltb totalPages (grid_page ctx) then totalPages
                   else grid_page ctx in
      existsb (λ id, match entryAt v id with
                     | None => true
                     | Some _ => false
                     end)
              (pageSlice ids2 pageSize page')
    end
  end.

(** What the handler leaves: the value assigned to [pokedex] ([None] when
    line 545 did not get to the assignment), the storage, and the notices. *)
Record Imported := {
  imported_pokedex : option Json;
  imported_storage : gmap string Slot;
  imported_toast : list string
}.

(** [reader.onload] of [importPokedex()] (line 545), [text] being the
    content of the chosen file: parse, assign, [save()], [renderPokedex()],
    notice; whatever is thrown on the way ends in the notice of an invalid
    file, with the writes made before it in place. *)
Definition importPokedex (env : Env) (ctx : ImportContext) (text : string) (s : State)
  : Imported :=
  match JSON_parse env text with
  | None =>
    {| imported_pokedex := None;
       imported_storage := Typed <$> localStorage s;
       imported_toast := "Arquivo inválido" :: toast s |}
  | Some v =>
    let saved := saveValue ctx v (captureCounter s) (Typed <$> localStorage s) (toast s) in
    {| imported_pokedex := Some v;
       imported_storage := saved.1;
       imported_toast :=
         (if renderPokedexThrows env ctx v then "Arquivo inválido"
          else "Pokédex importada") :: saved.2 |}
  end.

(** A browser that reads the text [null] as JSON does and has room for
    every write. *)
Definition nullEnv : Env :=
  {| pokeImage := true; quota := λ _ _ _, true;
     JSON_parse := λ text, if String.eqb text "null" then Some JNull else None;
     toUpperCase := asciiUpper; toLowerCase := asciiLower |}.

(** The grid as a fresh page shows it: 151 creatures, 48 cells a page, no
    search, no type, page 1. *)
Definition demoContext : ImportContext :=
  {| room := λ _ _ _, true; grid_allCount := 151; grid_inputs := demoGrid;
     grid_page := 1 |}.






(** A browser that has room for a Pokédex of one entry at most. *)
Definition tightEnv : Env :=
  {| pokeImage := true;
     quota := λ _ _ v, match v with
                       | StoredPokedex d => Nat.leb (size d) 1
                       | _ => true
                       end;
     JSON_parse := λ _, None;
     toUpperCase := asciiUpper; toLowerCase := asciiLower |}.

(** The page with one caught entry (150) and one entry that was only looked
    at in the detail dialog (19). *)
Definition scenarioTwoEntries : State :=
  showArrived demoEnv 19 (Some {| api_id := 19; api_name := "rattata";
                                  api_front_default := Some "rattata.png";
                                  api_front_shiny := None; api_types := ["normal"] |})
              scenarioCaught.

(** * Properties *)

(** ** Reading a variable after an assignment *)

Create Rewrite HintDb frame.

Lemma pokedex_set_pokedex d s : pokedex (set_pokedex d s) = d.
Proof. reflexivity. Qed.

Lemma inventory_set_pokedex d s : inventory (set_pokedex d s) = inventory s.
Proof. reflexivity. Qed.

Lemma captureCounter_set_pokedex d s : captureCounter (set_pokedex d s) = captureCounter s.
Proof. reflexivity. Qed.

Lemma currentEncounter_set_pokedex d s : currentEncounter (set_pokedex d s) = currentEncounter s.
Proof. reflexivity. Qed.

Lemma isProcessing_set_pokedex d s : isProcessing (set_pokedex d s) = isProcessing s.
Proof. reflexivity. Qed.

Lemma isFetchingEncounter_set_pokedex d s : isFetchingEncounter (set_pokedex d s) = isFetchingEncounter s.
Proof. reflexivity. Qed.

Lemma processingTimer_set_pokedex d s : _processingTimer (set_pokedex d s) = _processingTimer s.
Proof. reflexivity. Qed.

Lemma timers_set_pokedex d s : timers (set_pokedex d s) = timers s.
Proof. reflexivity. Qed.

Lemma localStorage_set_pokedex d s : localStorage (set_pokedex d s) = localStorage s.
Proof. reflexivity. Qed.

Lemma toast_set_pokedex d s : toast (set_pokedex d s) = toast s.
Proof. reflexivity. Qed.

Lemma requests_set_pokedex d s : requests (set_pokedex d s) = requests s.
Proof. reflexivity. Qed.

Lemma pokedex_set_inventory i s : pokedex (set_inventory i s) = pokedex s.
Proof. reflexivity. Qed.

Lemma inventory_set_inventory i s : inventory (set_inventory i s) = i.
Proof. reflexivity. Qed.

Lemma captureCounter_set_inventory i s : captureCounter (set_inventory i s) = captureCounter s.
Proof. reflexivity. Qed.

Lemma currentEncounter_set_inventory i s : currentEncounter (set_inventory i s) = currentEncounter s.
Proof. reflexivity. Qed.

Lemma isProcessing_set_inventory i s : isProcessing (set_inventory i s) = isProcessing s.
Proof. reflexivity. Qed.

Lemma isFetchingEncounter_set_inventory i s : isFetchingEncounter (set_inventory i s) = isFetchingEncounter s.
Proof. reflexivity. Qed.

Lemma processingTimer_set_inventory i s : _processingTimer (set_inventory i s) = _processingTimer s.
Proof. reflexivity. Qed.

Lemma timers_set_inventory i s : timers (set_inventory i s) = timers s.
Proof. reflexivity. Qed.

Lemma localStorage_set_inventory i s : localStorage (set_inventory i s) = localStorage s.
Proof. reflexivity. Qed.

Lemma toast_set_inventory i s : toast (set_inventory i s) = toast s.
Proof. reflexivity. Qed.

Lemma requests_set_inventory i s : requests (set_inventory i s) = requests s.
Proof. reflexivity. Qed.

Lemma pokedex_set_captureCounter c s : pokedex (set_captureCounter c s) = pokedex s.
Proof. reflexivity. Qed.

Lemma inventory_set_captureCounter c s : inventory (set_captureCounter c s) = inventory s.
Proof. reflexivity. Qed.

Lemma captureCounter_set_captureCounter c s : captureCounter (set_captureCounter c s) = c.
Proof. reflexivity. Qed.

Lemma currentEncounter_set_captureCounter c s : currentEncounter (set_captureCounter c s) = currentEncounter s.
Proof. reflexivity. Qed.

Lemma isProcessing_set_captureCounter c s : isProcessing (set_captureCounter c s) = isProcessing s.
Proof. reflexivity. Qed.

Lemma isFetchingEncounter_set_captureCounter c s : isFetchingEncounter (set_captureCounter c s) = isFetchingEncounter s.
Proof. reflexivity. Qed.

Lemma processingTimer_set_captureCounter c s : _processingTimer (set_captureCounter c s) = _processingTimer s.
Proof. reflexivity. Qed.

Lemma timers_set_captureCounter c s : timers (set_captureCounter c s) = timers s.
Proof. reflexivity. Qed.

Lemma localStorage_set_captureCounter c s : localStorage (set_captureCounter c s) = localStorage s.
Proof. reflexivity. Qed.

Lemma toast_set_captureCounter c s : toast (set_captureCounter c s) = toast s.
Proof. reflexivity. Qed.

Lemma requests_set_captureCounter c s : requests (set_captureCounter c s) = requests s.
Proof. reflexivity. Qed.

Lemma pokedex_set_currentEncounter e s : pokedex (set_currentEncounter e s) = pokedex s.
Proof. reflexivity. Qed.

Lemma inventory_set_currentEncounter e s : inventory (set_currentEncounter e s) = inventory s.
Proof. reflexivity. Qed.

Lemma captureCounter_set_currentEncounter e s : captureCounter (set_currentEncounter e s) = captureCounter s.
Proof. reflexivity. Qed.

Lemma currentEncounter_set_currentEncounter e s : currentEncounter (set_currentEncounter e s) = e.
Proof. reflexivity. Qed.

Lemma isProcessing_set_currentEncounter e s : isProcessing (set_currentEncounter e s) = isProcessing s.
Proof. reflexivity. Qed.

Lemma isFetchingEncounter_set_currentEncounter e s : isFetchingEncounter (set_currentEncounter e s) = isFetchingEncounter s.
Proof. reflexivity. Qed.

Lemma processingTimer_set_currentEncounter e s : _processingTimer (set_currentEncounter e s) = _processingTimer s.
Proof. reflexivity. Qed.

Lemma timers_set_currentEncounter e s : timers (set_currentEncounter e s) = timers s.
Proof. reflexivity. Qed.

Lemma localStorage_set_currentEncounter e s : localStorage (set_currentEncounter e s) = localStorage s.
Proof. reflexivity. Qed.

Lemma toast_set_currentEncounter e s : toast (set_currentEncounter e s) = toast s.
Proof. reflexivity. Qed.

Lemma requests_set_currentEncounter e s : requests (set_currentEncounter e s) = requests s.
Proof. reflexivity. Qed.

Lemma pokedex_set_processing p t s : pokedex (set_processing p t s) = pokedex s.
Proof. reflexivity. Qed.

Lemma inventory_set_processing p t s : inventory (set_processing p t s) = inventory s.
Proof. reflexivity. Qed.

Lemma captureCounter_set_processing p t s : captureCounter (set_processing p t s) = captureCounter s.
Proof. reflexivity. Qed.

Lemma currentEncounter_set_processing p t s : currentEncounter (set_processing p t s) = currentEncounter s.
Proof. reflexivity. Qed.

Lemma isProcessing_set_processing p t s : isProcessing (set_processing p t s) = p.
Proof. reflexivity. Qed.

Lemma isFetchingEncounter_set_processing p t s : isFetchingEncounter (set_processing p t s) = isFetchingEncounter s.
Proof. reflexivity. Qed.

Lemma processingTimer_set_processing p t s : _processingTimer (set_processing p t s) = t.
Proof. reflexivity. Qed.

Lemma timers_set_processing p t s : timers (set_processing p t s) = timers s.
Proof. reflexivity. Qed.

Lemma localStorage_set_processing p t s : localStorage (set_processing p t s) = localStorage s.
Proof. reflexivity. Qed.

Lemma toast_set_processing p t s : toast (set_processing p t s) = toast s.
Proof. reflexivity. Qed.

Lemma requests_set_processing p t s : requests (set_processing p t s) = requests s.
Proof. reflexivity. Qed.

Lemma pokedex_set_fetching f rs s : pokedex (set_fetching f rs s) = pokedex s.
Proof. reflexivity. Qed.

Lemma inventory_set_fetching f rs s : inventory (set_fetching f rs s) = inventory s.
Proof. reflexivity. Qed.

Lemma captureCounter_set_fetching f rs s : captureCounter (set_fetching f rs s) = captureCounter s.
Proof. reflexivity. Qed.

Lemma currentEncounter_set_fetching f rs s : currentEncounter (set_fetching f rs s) = currentEncounter s.
Proof. reflexivity. Qed.

Lemma isProcessing_set_fetching f rs s : isProcessing (set_fetching f rs s) = isProcessing s.
Proof. reflexivity. Qed.

Lemma isFetchingEncounter_set_fetching f rs s : isFetchingEncounter (set_fetching f rs s) = f.
Proof. reflexivity. Qed.

Lemma processingTimer_set_fetching f rs s : _processingTimer (set_fetching f rs s) = _processingTimer s.
Proof. reflexivity. Qed.

Lemma timers_set_fetching f rs s : timers (set_fetching f rs s) = timers s.
Proof. reflexivity. Qed.

Lemma localStorage_set_fetching f rs s : localStorage (set_fetching f rs s) = localStorage s.
Proof. reflexivity. Qed.

Lemma toast_set_fetching f rs s : toast (set_fetching f rs s) = toast s.
Proof. reflexivity. Qed.

Lemma requests_set_fetching f rs s : requests (set_fetching f rs s) = rs.
Proof. reflexivity. Qed.

Lemma pokedex_set_timers ts s : pokedex (set_timers ts s) = pokedex s.
Proof. reflexivity. Qed.

Lemma inventory_set_timers ts s : inventory (set_timers ts s) = inventory s.
Proof. reflexivity. Qed.

Lemma captureCounter_set_timers ts s : captureCounter (set_timers ts s) = captureCounter s.
Proof. reflexivity. Qed.

Lemma currentEncounter_set_timers ts s : currentEncounter (set_timers ts s) = currentEncounter s.
Proof. reflexivity. Qed.

Lemma isProcessing_set_timers ts s : isProcessing (set_timers ts s) = isProcessing s.
Proof. reflexivity. Qed.

Lemma isFetchingEncounter_set_timers ts s : isFetchingEncounter (set_timers ts s) = isFetchingEncounter s.
Proof. reflexivity. Qed.

Lemma processingTimer_set_timers ts s : _processingTimer (set_timers ts s) = _processingTimer s.
Proof. reflexivity. Qed.

Lemma timers_set_timers ts s : timers (set_timers ts s) = ts.
Proof. reflexivity. Qed.

Lemma localStorage_set_timers ts s : localStorage (set_timers ts s) = localStorage s.
Proof. reflexivity. Qed.

Lemma toast_set_timers ts s : toast (set_timers ts s) = toast s.
Proof. reflexivity. Qed.

Lemma requests_set_timers ts s : requests (set_timers ts s) = requests s.
Proof. reflexivity. Qed.

Lemma pokedex_set_localStorage l s : pokedex (set_localStorage l s) = pokedex s.
Proof. reflexivity. Qed.

Lemma inventory_set_localStorage l s : inventory (set_localStorage l s) = inventory s.
Proof. reflexivity. Qed.

Lemma captureCounter_set_localStorage l s : captureCounter (set_localStorage l s) = captureCounter s.
Proof. reflexivity. Qed.

Lemma currentEncounter_set_localStorage l s : currentEncounter (set_localStorage l s) = currentEncounter s.
Proof. reflexivity. Qed.

Lemma isProcessing_set_localStorage l s : isProcessing (set_localStorage l s) = isProcessing s.
Proof. reflexivity. Qed.

Lemma isFetchingEncounter_set_localStorage l s : isFetchingEncounter (set_localStorage l s) = isFetchingEncounter s.
Proof. reflexivity. Qed.

Lemma processingTimer_set_localStorage l s : _processingTimer (set_localStorage l s) = _processingTimer s.
Proof. reflexivity. Qed.

Lemma timers_set_localStorage l s : timers (set_localStorage l s) = timers s.
Proof. reflexivity. Qed.

Lemma localStorage_set_localStorage l s : localStorage (set_localStorage l s) = l.
Proof. reflexivity. Qed.

Lemma toast_set_localStorage l s : toast (set_localStorage l s) = toast s.
Proof. reflexivity. Qed.

Lemma requests_set_localStorage l s : requests (set_localStorage l s) = requests s.
Proof. reflexivity. Qed.

Lemma pokedex_setToast msg s : pokedex (setToast msg s) = pokedex s.
Proof. reflexivity. Qed.

Lemma inventory_setToast msg s : inventory (setToast msg s) = inventory s.
Proof. reflexivity. Qed.

Lemma captureCounter_setToast msg s : captureCounter (setToast msg s) = captureCounter s.
Proof. reflexivity. Qed.

Lemma currentEncounter_setToast msg s : currentEncounter (setToast msg s) = currentEncounter s.
Proof. reflexivity. Qed.

Lemma isProcessing_setToast msg s : isProcessing (setToast msg s) = isProcessing s.
Proof. reflexivity. Qed.

Lemma isFetchingEncounter_setToast msg s : isFetchingEncounter (setToast msg s) = isFetchingEncounter s.
Proof. reflexivity. Qed.

Lemma processingTimer_setToast msg s : _processingTimer (setToast msg s) = _processingTimer s.
Proof. reflexivity. Qed.

Lemma timers_setToast msg s : timers (setToast msg s) = timers s.
Proof. reflexivity. Qed.

Lemma localStorage_setToast msg s : localStorage (setToast msg s) = localStorage s.
Proof. reflexivity. Qed.

Lemma toast_setToast msg s : toast (setToast msg s) = msg :: toast s.
Proof. reflexivity. Qed.

Lemma requests_setToast msg s : requests (setToast msg s) = requests s.
Proof. reflexivity. Qed.

#[global] Hint Rewrite
  pokedex_set_pokedex inventory_set_pokedex captureCounter_set_pokedex
  currentEncounter_set_pokedex isProcessing_set_pokedex isFetchingEncounter_set_pokedex
  processingTimer_set_pokedex timers_set_pokedex localStorage_set_pokedex
  toast_set_pokedex requests_set_pokedex pokedex_set_inventory
  inventory_set_inventory captureCounter_set_inventory currentEncounter_set_inventory
  isProcessing_set_inventory isFetchingEncounter_set_inventory processingTimer_set_inventory
  timers_set_inventory localStorage_set_inventory toast_set_inventory
  requests_set_inventory pokedex_set_captureCounter inventory_set_captureCounter
  captureCounter_set_captureCounter currentEncounter_set_captureCounter isProcessing_set_captureCounter
  isFetchingEncounter_set_captureCounter processingTimer_set_captureCounter timers_set_captureCounter
  localStorage_set_captureCounter toast_set_captureCounter requests_set_captureCounter
  pokedex_set_currentEncounter inventory_set_currentEncounter captureCounter_set_currentEncounter
  currentEncounter_set_currentEncounter isProcessing_set_currentEncounter isFetchingEncounter_set_currentEncounter
  processingTimer_set_currentEncounter timers_set_currentEncounter localStorage_set_currentEncounter
  toast_set_currentEncounter requests_set_currentEncounter pokedex_set_processing
  inventory_set_processing captureCounter_set_processing currentEncounter_set_processing
  isProcessing_set_processing isFetchingEncounter_set_processing processingTimer_set_processing
  timers_set_processing localStorage_set_processing toast_set_processing
  requests_set_processing pokedex_set_fetching inventory_set_fetching
  captureCounter_set_fetching currentEncounter_set_fetching isProcessing_set_fetching
  isFetchingEncounter_set_fetching processingTimer_set_fetching timers_set_fetching
  localStorage_set_fetching toast_set_fetching requests_set_fetching
  pokedex_set_timers inventory_set_timers captureCounter_set_timers
  currentEncounter_set_timers isProcessing_set_timers isFetchingEncounter_set_timers
  processingTimer_set_timers timers_set_timers localStorage_set_timers
  toast_set_timers requests_set_timers pokedex_set_localStorage
  inventory_set_localStorage captureCounter_set_localStorage currentEncounter_set_localStorage
  isProcessing_set_localStorage isFetchingEncounter_set_localStorage processingTimer_set_localStorage
  timers_set_localStorage localStorage_set_localStorage toast_set_localStorage
  requests_set_localStorage pokedex_setToast inventory_setToast
  captureCounter_setToast currentEncounter_setToast isProcessing_setToast
  isFetchingEncounter_setToast processingTimer_setToast timers_setToast
  localStorage_setToast toast_setToast requests_setToast : frame.


(** Reads a variable back through the assignments made to the state. *)
Ltac simpl_state :=
  unfold startProcessing, stopProcessing, setTimeout;
  autorewrite with frame.


(** ** Frame lemmas: what the persistence helpers leave alone *)

Ltac frame_storage :=
  intros;
  repeat match goal with
         | |- context [save ?e ?s] => unfold save
         | |- context [saveInventory ?e ?s] => unfold saveInventory
         | |- context [setItem ?e ?k ?v ?s] => unfold setItem
         | |- context [if ?b then _ else _] => destruct b
         end;
  reflexivity.

Lemma save_pokedex env s : pokedex (save env s) = pokedex s.
Proof. frame_storage. Qed.

Lemma save_inventory env s : inventory (save env s) = inventory s.
Proof. frame_storage. Qed.

Lemma save_captureCounter env s : captureCounter (save env s) = captureCounter s.
Proof. frame_storage. Qed.

Lemma save_currentEncounter env s : currentEncounter (save env s) = currentEncounter s.
Proof. frame_storage. Qed.

Lemma save_isProcessing env s : isProcessing (save env s) = isProcessing s.
Proof. frame_storage. Qed.

Lemma save_isFetchingEncounter env s :
  isFetchingEncounter (save env s) = isFetchingEncounter s.
Proof. frame_storage. Qed.

Lemma save_processingTimer env s : _processingTimer (save env s) = _processingTimer s.
Proof. frame_storage. Qed.

Lemma save_timers env s : timers (save env s) = timers s.
Proof. frame_storage. Qed.

Lemma save_requests env s : requests (save env s) = requests s.
Proof. frame_storage. Qed.

Lemma saveInventory_pokedex env s : pokedex (saveInventory env s) = pokedex s.
Proof. frame_storage. Qed.

Lemma saveInventory_inventory env s : inventory (saveInventory env s) = inventory s.
Proof. frame_storage. Qed.

Lemma saveInventory_captureCounter env s :
  captureCounter (saveInventory env s) = captureCounter s.
Proof. frame_storage. Qed.

Lemma saveInventory_currentEncounter env s :
  currentEncounter (saveInventory env s) = currentEncounter s.
Proof. frame_storage. Qed.

Lemma saveInventory_isProcessing env s :
  isProcessing (saveInventory env s) = isProcessing s.
Proof. frame_storage. Qed.

Lemma saveInventory_isFetchingEncounter env s :
  isFetchingEncounter (saveInventory env s) = isFetchingEncounter s.
Proof. frame_storage. Qed.

Lemma saveInventory_processingTimer env s :
  _processingTimer (saveInventory env s) = _processingTimer s.
Proof. frame_storage. Qed.

Lemma saveInventory_timers env s : timers (saveInventory env s) = timers s.
Proof. frame_storage. Qed.

Lemma saveInventory_requests env s : requests (saveInventory env s) = requests s.
Proof. frame_storage. Qed.

#[global] Hint Rewrite
  save_pokedex save_inventory save_captureCounter save_currentEncounter
  save_isProcessing save_isFetchingEncounter save_processingTimer save_timers
  save_requests
  saveInventory_pokedex saveInventory_inventory saveInventory_captureCounter
  saveInventory_currentEncounter saveInventory_isProcessing
  saveInventory_isFetchingEncounter saveInventory_processingTimer
  saveInventory_timers saveInventory_requests : frame.

(** With room in the storage, [saveInventory] leaves the payload
    [{ inventory, captureCounter }] under the inventory key. *)
Lemma saveInventory_persists env s :
  roomy env →
  localStorage (saveInventory env s) !! (STORAGE_KEY ++ "_inv")
  = Some (StoredInventory (inventory s) (captureCounter s)).
Proof.
  intros Hroom. unfold saveInventory, setItem. rewrite Hroom. cbn.
  apply lookup_insert_eq.
Qed.

(** ** The timer queue *)

Lemma set_timers_same s : set_timers (timers s) s = s.
Proof. by destruct s. Qed.

Lemma dequeue_last (ts : list (Z * Task)) (x : Z * Task) :
  dequeue (length ts) (ts ++ [x]) = ts.
Proof.
  unfold dequeue.
  rewrite take_app_length.
  rewrite drop_ge; [apply app_nil_r|].
  rewrite length_app. cbn. lia.
Qed.

(** Firing the callback that was queued last runs it on the state that
    queued it. *)
Lemma fire_last env t d i s :
  step env (Fire (length (timers s)) i) (setTimeout t d s) = runTask env t i s.
Proof.
  cbn [step setTimeout set_timers timers].
  rewrite lookup_app_r by lia.
  replace (length (timers s) - length (timers s))%nat with 0%nat by lia.
  cbn [lookup list_lookup].
  rewrite dequeue_last.
  f_equal. by destruct s.
Qed.

(** ** What [tryCatch] hands to the timer *)

(** An accepted attempt with an available item queues exactly one callback,
    carrying the probability computed from the state at the click; the state
    it leaves differs from the one it found by the raised guard, the consumed
    item and the storage. *)
Lemma tryCatch_accepted env sel s enc :
  isProcessing s = false →
  currentEncounter s = Some enc →
  ballAvailable (inventory s) (chosenBall sel) = true →
  ∃ s1,
    tryCatch env sel s
    = setTimeout (ResolveCapture (captureChance (pokedex s) enc (chosenBall sel))) 600 s1
    ∧ timers s1 = timers s
    ∧ currentEncounter s1 = Some enc
    ∧ pokedex s1 = pokedex s
    ∧ captureCounter s1 = captureCounter s
    ∧ isProcessing s1 = true.
Proof.
  intros Hidle Henc Hball. unfold tryCatch, ballAvailable in *.
  rewrite Hidle, Henc. cbn.
  destruct (String.eqb (chosenBall sel) "pokeball") eqn:Hdefault; cbn in *.
  - eexists. split; [reflexivity|]. by cbn.
  - apply Z.ltb_lt in Hball.
    destruct (Z.leb (ballCount (inventory s) (chosenBall sel)) 0) eqn:Hzero.
    + apply Z.leb_le in Hzero. lia.
    + eexists. split; [reflexivity|].
      autorewrite with frame. by cbn.
Qed.

(** Firing the last queued callback, when the state that queued it had the
    same pending timers as [s]. *)
Lemma fire_queued env t d i s s1 :
  timers s1 = timers s →
  step env (Fire (length (timers s)) i) (setTimeout t d s1) = runTask env t i s1.
Proof. intros <-. apply fire_last. Qed.

(** ** What [finalizeCapture] writes *)

Lemma grantBonus_pokedex env s : pokedex (grantBonus env s) = pokedex s.
Proof.
  unfold grantBonus. autorewrite with frame. cbn.
  by repeat match goal with |- context [if ?b then _ else _] => destruct b; cbn end.
Qed.

Lemma grantBonus_timers env s : timers (grantBonus env s) = timers s.
Proof.
  unfold grantBonus. autorewrite with frame. cbn.
  by repeat match goal with |- context [if ?b then _ else _] => destruct b; cbn end.
Qed.

Lemma grantBonus_captureCounter env s :
  captureCounter (grantBonus env s) = captureCounter s + 1.
Proof.
  unfold grantBonus. autorewrite with frame. cbn.
  by repeat match goal with |- context [if ?b then _ else _] => destruct b; cbn end.
Qed.

Lemma finalizeCapture_pokedex env id now s enc :
  currentEncounter s = Some enc →
  pokedex (finalizeCapture env id now s)
  = <[id := capturedRecord now id enc (pokedex s)]> (pokedex s).
Proof.
  intros Henc. unfold finalizeCapture, capturedRecord. rewrite Henc. cbn.
  match goal with |- context [if ?b then _ else _] => destruct b end;
    rewrite ?grantBonus_pokedex; cbn; by autorewrite with frame.
Qed.

Lemma capturedRecord_caught now id enc d : p_caught (capturedRecord now id enc d) = true.
Proof. unfold capturedRecord, stamp. by case_match. Qed.

(** ** The claims *)

(** C7. While a resolution is in flight ([isProcessing] is set), a click on
    the capture button or on the run button returns at once: the whole state
    (inventory, Pokédex, pending callbacks, current encounter) is the one it
    found. *)
Theorem resolving_ignores_actions env sel s :
  isProcessing s = true →
  tryCatch env sel s = s ∧ runAway env s = s
  ∧ step env (ClickCatch sel) s = s ∧ step env ClickRun s = s.
Proof.
  intros Hbusy. cbn. unfold tryCatch, runAway. by rewrite Hbusy.
Qed.

Lemma resolving_ignores_actions_witness :
  let s := startProcessing (demoState false false) in
  isProcessing s = true
  ∧ (tryCatch demoEnv (Some "greatball") s = s ∧ runAway demoEnv s = s
     ∧ step demoEnv (ClickCatch (Some "greatball")) s = s ∧ step demoEnv ClickRun s = s).
Proof.
  split; [reflexivity|].
  apply (resolving_ignores_actions demoEnv (Some "greatball")
           (startProcessing (demoState false false))).
  reflexivity.
Defined.

(** C3. An attempt with a finite item type whose count is zero or less is
    abandoned: the guard is lowered again (Idle), the notice
    "Sem bolas desse tipo!" is shown, and the inventory, the Pokédex, the
    capture counter, the storage, the pending callbacks and the encounter are
    left as they were. *)
Theorem out_of_balls_aborts env sel s enc :
  isProcessing s = false →
  currentEncounter s = Some enc →
  chosenBall sel ≠ "pokeball" →
  ballCount (inventory s) (chosenBall sel) ≤ 0 →
  let s' := tryCatch env sel s in
  isProcessing s' = false
  ∧ _processingTimer s' = false
  ∧ toast s' = "Sem bolas desse tipo!" :: toast s
  ∧ inventory s' = inventory s
  ∧ pokedex s' = pokedex s
  ∧ captureCounter s' = captureCounter s
  ∧ localStorage s' = localStorage s
  ∧ timers s' = timers s
  ∧ currentEncounter s' = currentEncounter s.
Proof.
  intros Hidle Henc Hfinite Hzero. unfold tryCatch.
  rewrite Hidle, Henc. cbn.
  apply String.eqb_neq in Hfinite. rewrite Hfinite. cbn.
  apply Z.leb_le in Hzero. rewrite Hzero. cbn.
  by rewrite Henc.
Qed.

Lemma out_of_balls_aborts_witness :
  let s := set_inventory (<["greatball" := 0]> (inventory initial)) (demoState false false) in
  let s' := tryCatch demoEnv (Some "greatball") s in
  (isProcessing s = false ∧ ballCount (inventory s) "greatball" ≤ 0)
  ∧ isProcessing s' = false
  ∧ _processingTimer s' = false
  ∧ toast s' = "Sem bolas desse tipo!" :: toast s
  ∧ inventory s' = inventory s
  ∧ pokedex s' = pokedex s
  ∧ captureCounter s' = captureCounter s
  ∧ localStorage s' = localStorage s
  ∧ timers s' = timers s
  ∧ currentEncounter s' = currentEncounter s.
Proof.
  split; [split; [reflexivity|by vm_compute]|].
  apply (out_of_balls_aborts demoEnv (Some "greatball")
           (set_inventory (<["greatball" := 0]> (inventory initial)) (demoState false false))
           (demoEncounter false false)).
  - reflexivity.
  - reflexivity.
  - discriminate.
  - by vm_compute.
Defined.

(** The probability computed by the script is the one the specification
    words, whatever the item name and the capture history. *)
Lemma captureChance_spec d enc ball :
  (e_shiny enc && e_is_legendary enc)%bool = false →
  captureChance d enc ball = specChance (ballBonus ball) (alreadyCaught d (e_id enc))
  ∧ PrimFloat.leb (captureChance d enc ball) 0.98%float = true.
Proof.
  intros Hplain. unfold captureChance. rewrite Hplain.
  unfold ballBonus.
  destruct (String.eqb ball "pokeball"), (String.eqb ball "greatball"),
    (String.eqb ball "ultraball"), (alreadyCaught d (e_id enc));
    split; reflexivity.
Qed.

(** C2. For an encounter that is not both shiny and legendary, the attempt
    computes the base constant 0.35 times the multiplier of the chosen item
    type (pokeball 1.0, greatball 1.5, ultraball 2.2), plus the penalty -0.1
    when the entry of the creature is already marked caught, clamped to at
    most 0.98; that value is the one handed to the resolution callback. *)
Theorem chance_is_base_times_bonus_clamped env sel s enc :
  isProcessing s = false →
  currentEncounter s = Some enc →
  (e_shiny enc && e_is_legendary enc)%bool = false →
  ballAvailable (inventory s) (chosenBall sel) = true →
  let ball := chosenBall sel in
  let chance := specChance (ballBonus ball) (alreadyCaught (pokedex s) (e_id enc)) in
  captureChance (pokedex s) enc ball = chance
  ∧ timers (tryCatch env sel s) = (timers s ++ [(600, ResolveCapture chance)])%list
  ∧ PrimFloat.leb chance 0.98%float = true
  ∧ (∀ t : ItemType, ballBonus (itemName t) = specMultiplier t).
Proof.
  intros Hidle Henc Hplain Hball. cbn zeta.
  destruct (captureChance_spec (pokedex s) enc (chosenBall sel) Hplain) as [Heq Hle].
  destruct (tryCatch_accepted env sel s enc Hidle Henc Hball)
    as (s1 & Hrun & Htimers & _).
  repeat split.
  - exact Heq.
  - rewrite Hrun, <- Heq. cbn. by rewrite Htimers.
  - by rewrite <- Heq.
  - by intros [].
Qed.

Lemma chance_is_base_times_bonus_clamped_witness :
  let s := demoState true false in
  (isProcessing s = false ∧ ballAvailable (inventory s) "ultraball" = true)
  ∧ captureChance (pokedex s) (demoEncounter true false) "ultraball" = 0.77%float
  ∧ timers (tryCatch demoEnv (Some "ultraball") s) = [(600, ResolveCapture 0.77%float)].
Proof.
  split; [split; reflexivity|].
  destruct (chance_is_base_times_bonus_clamped demoEnv (Some "ultraball")
              (demoState true false) (demoEncounter true false)
              eq_refl eq_refl eq_refl eq_refl) as (Hchance & Htimers & _).
  split; [exact Hchance | exact Htimers].
Defined.

(** C1. For a shiny legendary encounter the attempt computes the probability
    1.0, whatever the item and the capture history, and the capture succeeds
    for every value [Math.random()] can return: the resolution queues the
    finalisation, which marks the creature caught. *)
Theorem shiny_legendary_always_caught env sel s enc i1 i2 :
  isProcessing s = false →
  currentEncounter s = Some enc →
  e_shiny enc = true →
  e_is_legendary enc = true →
  ballAvailable (inventory s) (chosenBall sel) = true →
  PrimFloat.ltb (in_random i1) 1.0%float = true →
  let n := length (timers s) in
  let s1 := step env (ClickCatch sel) s in
  let s2 := step env (Fire n i1) s1 in
  let s3 := step env (Fire n i2) s2 in
  captureChance (pokedex s) enc (chosenBall sel) = 1.0%float
  ∧ timers s1 = (timers s ++ [(600, ResolveCapture 1.0%float)])%list
  ∧ timers s2 = (timers s ++ [(420, FinalizeCapture (e_id enc))])%list
  ∧ ∃ p, pokedex s3 !! e_id enc = Some p ∧ p_caught p = true.
Proof.
  intros Hidle Henc Hshiny Hleg Hball Hdraw. cbn zeta.
  assert (Hchance : captureChance (pokedex s) enc (chosenBall sel) = 1.0%float).
  { unfold captureChance. by rewrite Hshiny, Hleg. }
  destruct (tryCatch_accepted env sel s enc Hidle Henc Hball)
    as (s1 & Hrun & Htimers & Henc1 & Hdex & _).
  rewrite Hchance in Hrun.
  change (step env (ClickCatch sel) s) with (tryCatch env sel s). rewrite Hrun.
  split; [exact Hchance|].
  split; [cbn; by rewrite Htimers|].
  rewrite (fire_queued env _ _ i1 s s1 Htimers).
  cbn [runTask]. unfold resolveCapture. rewrite Henc1, Hdraw.
  split; [cbn; by rewrite Htimers|].
  rewrite (fire_queued env _ _ i2 s s1 Htimers).
  cbn [runTask]. rewrite (finalizeCapture_pokedex env _ _ s1 enc Henc1).
  eexists. split; [apply lookup_insert_eq|apply capturedRecord_caught].
Qed.

Lemma shiny_legendary_always_caught_witness :
  let s := demoState true true in
  let s3 := run demoEnv [ClickCatch None; Fire 0 (demoInputs 0.999%float);
                         Fire 0 (demoInputs 0.5%float)] s in
  PrimFloat.ltb 0.999%float 1.0%float = true
  ∧ captureChance (pokedex s) (demoEncounter true true) "pokeball" = 1.0%float
  ∧ ∃ p, pokedex s3 !! 150 = Some p ∧ p_caught p = true.
Proof.
  split; [reflexivity|].
  destruct (shiny_legendary_always_caught demoEnv None (demoState true true)
              (demoEncounter true true) (demoInputs 0.999%float) (demoInputs 0.5%float)
              eq_refl eq_refl eq_refl eq_refl eq_refl eq_refl)
    as (Hchance & _ & _ & Hcaught).
  split; [exact Hchance | exact Hcaught].
Defined.

(** C8. When the draw is not below the probability, the resolution and the
    escape that follows it (at once when the page has no image element,
    through the 700 ms callback otherwise) write neither the Pokédex nor the
    inventory, the capture counter or the storage; they clear the encounter,
    lower the guard and call [encounterRandom()], so that a request for a new
    encounter is in flight. *)
Theorem failed_capture_changes_no_store env chance s enc i1 i2 :
  currentEncounter s = Some enc →
  PrimFloat.ltb (in_random i1) chance = false →
  let n := length (timers s) in
  let s1 := step env (Fire n i1) (setTimeout (ResolveCapture chance) 600 s) in
  let s2 := if pokeImage env then step env (Fire n i2) s1 else s1 in
  let roll := if pokeImage env then in_roll i2 else in_roll i1 in
  pokedex s2 = pokedex s
  ∧ inventory s2 = inventory s
  ∧ captureCounter s2 = captureCounter s
  ∧ localStorage s2 = localStorage s
  ∧ currentEncounter s2 = None
  ∧ isProcessing s2 = false
  ∧ _processingTimer s2 = false
  ∧ timers s2 = timers s
  ∧ isFetchingEncounter s2 = true
  ∧ requests s2 = (if isFetchingEncounter s then requests s else (roll + 1) :: requests s).
Proof.
  intros Henc Hdraw. cbn zeta.
  rewrite fire_last. cbn [runTask]. unfold resolveCapture.
  rewrite Henc, Hdraw.
  destruct (pokeImage env).
  - rewrite fire_last. cbn [runTask]. unfold escape, encounterRandom.
    simpl_state. destruct (isFetchingEncounter s) eqn:Hfetch; simpl_state; by rewrite ?Hfetch.
  - unfold encounterRandom.
    simpl_state. destruct (isFetchingEncounter s) eqn:Hfetch; simpl_state; by rewrite ?Hfetch.
Qed.

Lemma failed_capture_changes_no_store_witness :
  let s := startProcessing (demoState false false) in
  let i1 := demoInputs 0.99%float in
  let i2 := demoInputs 0.5%float in
  PrimFloat.ltb (in_random i1) 0.35%float = false
  ∧ let n := length (timers s) in
    let s1 := step demoEnv (Fire n i1) (setTimeout (ResolveCapture 0.35%float) 600 s) in
    let s2 := if pokeImage demoEnv then step demoEnv (Fire n i2) s1 else s1 in
    let roll := if pokeImage demoEnv then in_roll i2 else in_roll i1 in
    pokedex s2 = pokedex s
    ∧ inventory s2 = inventory s
    ∧ captureCounter s2 = captureCounter s
    ∧ localStorage s2 = localStorage s
    ∧ currentEncounter s2 = None
    ∧ isProcessing s2 = false
    ∧ _processingTimer s2 = false
    ∧ timers s2 = timers s
    ∧ isFetchingEncounter s2 = true
    ∧ requests s2
      = (if isFetchingEncounter s then requests s else (roll + 1) :: requests s).
Proof.
  split; [reflexivity|].
  exact (failed_capture_changes_no_store demoEnv 0.35%float
           (startProcessing (demoState false false)) (demoEncounter false false)
           (demoInputs 0.99%float) (demoInputs 0.5%float) eq_refl eq_refl).
Defined.

(** ** The capture timestamp *)

Lemma stamp_keeps now p : truthy (p_capturedAt p) = true → stamp now p = p.
Proof. intros H. unfold stamp. by rewrite H. Qed.

Lemma capturedRecord_capturedAt now id enc d :
  p_capturedAt (capturedRecord now id enc d)
  = if truthy (capturedAtOf d id) then capturedAtOf d id else Some now.
Proof.
  unfold capturedRecord, capturedAtOf, stamp.
  destruct (d !! id) as [p|]; cbn; [|done].
  by destruct (truthy (p_capturedAt p)).
Qed.

Lemma truthy_Some (t : string) : t ≠ "" → truthy (Some t) = true.
Proof. intros H. cbn. apply String.eqb_neq in H. by rewrite H. Qed.

(** A finalisation, completed or cut short, keeps a timestamp that is set,
    for the captured identifier and for every other one. *)
Lemma finalizeCapture_keeps_capturedAt env id0 now s id t :
  t ≠ "" →
  capturedAtOf (pokedex s) id = Some t →
  capturedAtOf (pokedex (finalizeCapture env id0 now s)) id = Some t.
Proof.
  intros Ht Hset. pose proof (truthy_Some t Ht) as Htruthy.
  destruct (currentEncounter s) as [enc|] eqn:Henc.
  - rewrite (finalizeCapture_pokedex env id0 now s enc Henc).
    unfold capturedAtOf. destruct (decide (id0 = id)) as [->|Hne].
    + rewrite lookup_insert_eq, capturedRecord_capturedAt.
      fold (capturedAtOf (pokedex s) id). by rewrite Hset, Htruthy.
    + by rewrite lookup_insert_ne.
  - unfold finalizeCapture. rewrite Henc.
    destruct (pokedex s !! id0) as [p0|] eqn:Hp0; [|done].
    destruct (truthy (p_sprite (with_caught p0)));
      autorewrite with frame; cbn; unfold capturedAtOf in *;
      (destruct (decide (id0 = id)) as [->|Hne];
       [rewrite lookup_insert_eq; rewrite Hp0 in Hset; cbn in Hset
       |by rewrite lookup_insert_ne]).
    + rewrite stamp_keeps; cbn; [done|]. by rewrite Hset.
    + done.
Qed.

(** No handler of the resolver writes the Pokédex, the finalisation apart. *)
Lemma tryCatch_pokedex env sel s : pokedex (tryCatch env sel s) = pokedex s.
Proof.
  unfold tryCatch. repeat case_match; cbn; by autorewrite with frame.
Qed.

Lemma runAway_pokedex env s : pokedex (runAway env s) = pokedex s.
Proof. unfold runAway. by repeat case_match. Qed.

Lemma encounterRandom_pokedex roll s : pokedex (encounterRandom roll s) = pokedex s.
Proof. unfold encounterRandom. by case_match. Qed.

Lemma encounterArrived_pokedex env res roll s :
  pokedex (encounterArrived env res roll s) = pokedex s.
Proof. unfold encounterArrived. by repeat case_match. Qed.

Lemma resolveCapture_pokedex env chance r roll s :
  pokedex (resolveCapture env chance r roll s) = pokedex s.
Proof.
  unfold resolveCapture, encounterRandom. by repeat (case_match; cbn).
Qed.

Lemma step_keeps_capturedAt env ev s id t :
  resolverEvent ev = true →
  t ≠ "" →
  capturedAtOf (pokedex s) id = Some t →
  capturedAtOf (pokedex (step env ev s)) id = Some t.
Proof.
  intros Hev Ht Hset.
  destruct ev as [roll|sel| |res roll|n i| |text| ]; cbn [step]; try discriminate.
  - by rewrite encounterRandom_pokedex.
  - by rewrite tryCatch_pokedex.
  - by rewrite runAway_pokedex.
  - by rewrite encounterArrived_pokedex.
  - destruct (timers s !! n) as [[d task]|]; [|done].
    destruct task; cbn [runTask].
    + by rewrite resolveCapture_pokedex.
    + by apply finalizeCapture_keeps_capturedAt.
    + unfold escape. by rewrite encounterRandom_pokedex.
    + done.
    + unfold nextEncounter. by rewrite encounterRandom_pokedex.
    + by rewrite encounterRandom_pokedex.
  - unfold watchdog. by case_match.
Qed.

Lemma run_keeps_capturedAt env evs s id t :
  forallb resolverEvent evs = true →
  t ≠ "" →
  capturedAtOf (pokedex s) id = Some t →
  capturedAtOf (pokedex (run env evs s)) id = Some t.
Proof.
  revert s. induction evs as [|ev evs IH]; intros s Hevs Ht Hset; [done|].
  cbn in Hevs. apply andb_prop in Hevs as [Hev Hevs].
  cbn [run]. apply IH; [done..|]. by apply step_keeps_capturedAt.
Qed.

(** C5. A successful capture writes [capturedAt] only when it was unset
    (absent, null or empty): the entry then carries the time of this capture,
    otherwise the value it had.  After that first assignment, a later capture
    of the same identifier, whatever the resolver did in between, leaves
    [capturedAt] as it is.  ([now1] is a result of [toISOString()], which is
    never the empty string.) *)
Theorem capturedAt_written_once env id now1 now2 evs s enc :
  currentEncounter s = Some enc →
  now1 ≠ "" →
  forallb resolverEvent evs = true →
  let s1 := finalizeCapture env id now1 s in
  let s2 := finalizeCapture env id now2 (run env evs s1) in
  capturedAtOf (pokedex s1) id
  = (if truthy (capturedAtOf (pokedex s) id) then capturedAtOf (pokedex s) id
     else Some now1)
  ∧ capturedAtOf (pokedex s2) id = capturedAtOf (pokedex s1) id.
Proof.
  intros Henc Hnow Hevs. cbn zeta.
  assert (Hfirst : capturedAtOf (pokedex (finalizeCapture env id now1 s)) id
                   = (if truthy (capturedAtOf (pokedex s) id)
                      then capturedAtOf (pokedex s) id else Some now1)).
  { rewrite (finalizeCapture_pokedex env id now1 s enc Henc).
    unfold capturedAtOf at 1. rewrite lookup_insert_eq.
    apply capturedRecord_capturedAt. }
  split; [exact Hfirst|].
  assert (∃ t, t ≠ "" ∧ capturedAtOf (pokedex (finalizeCapture env id now1 s)) id = Some t)
    as (t & Ht & Hset).
  { rewrite Hfirst. destruct (capturedAtOf (pokedex s) id) as [t0|] eqn:Hold; cbn.
    - destruct (String.eqb t0 "") eqn:He; cbn.
      + by exists now1.
      + exists t0. split; [by apply String.eqb_neq|done].
    - by exists now1. }
  rewrite Hset.
  apply finalizeCapture_keeps_capturedAt; [done|].
  by apply run_keeps_capturedAt.
Qed.

Lemma capturedAt_written_once_witness :
  let s := demoState false false in
  let now1 := "2024-05-01T10:00:00.000Z" in
  let now2 := "2024-06-09T08:30:00.000Z" in
  (now1 ≠ "" ∧ forallb resolverEvent demoRecapture = true)
  ∧ let s1 := finalizeCapture demoEnv 150 now1 s in
    let s2 := finalizeCapture demoEnv 150 now2 (run demoEnv demoRecapture s1) in
    capturedAtOf (pokedex s1) 150
    = (if truthy (capturedAtOf (pokedex s) 150) then capturedAtOf (pokedex s) 150
       else Some now1)
    ∧ capturedAtOf (pokedex s2) 150 = capturedAtOf (pokedex s1) 150.
Proof.
  split; [split; [discriminate|reflexivity]|].
  exact (capturedAt_written_once demoEnv 150 "2024-05-01T10:00:00.000Z"
           "2024-06-09T08:30:00.000Z" demoRecapture (demoState false false)
           (demoEncounter false false) eq_refl ltac:(discriminate) eq_refl).
Defined.

(** ** The capture counter and the bonus grants *)

Lemma bonusInventory_greatball c inv :
  ballCount (bonusInventory c inv) "greatball"
  = ballCount inv "greatball" + (if Z.eqb (Z.rem c 10) 0 then 1 else 0).
Proof.
  unfold bonusInventory, ballCount.
  destruct (Z.eqb (Z.rem c 10) 0), (Z.eqb (Z.rem c 100) 0);
    rewrite ?(lookup_insert_ne _ "ultraball" "greatball") by done;
    rewrite ?lookup_insert_eq; cbn; lia.
Qed.

Lemma bonusInventory_ultraball c inv :
  ballCount (bonusInventory c inv) "ultraball"
  = ballCount inv "ultraball" + (if Z.eqb (Z.rem c 100) 0 then 1 else 0).
Proof.
  unfold bonusInventory, ballCount.
  destruct (Z.eqb (Z.rem c 10) 0), (Z.eqb (Z.rem c 100) 0);
    rewrite ?lookup_insert_eq;
    rewrite ?(lookup_insert_ne _ "greatball" "ultraball") by done;
    cbn; lia.
Qed.


Lemma grantBonus_inventory env s :
  inventory (grantBonus env s) = bonusInventory (captureCounter s + 1) (inventory s).
Proof.
  unfold grantBonus, bonusInventory. simpl_state.
  destruct (Z.eqb (Z.rem (captureCounter s + 1) 10) 0); simpl_state;
    destruct (Z.eqb (Z.rem (captureCounter s + 1) 100) 0); by simpl_state.
Qed.

Lemma grantBonus_persists env s :
  roomy env →
  localStorage (grantBonus env s) !! (STORAGE_KEY ++ "_inv")
  = Some (StoredInventory (inventory (grantBonus env s))
                          (captureCounter (grantBonus env s))).
Proof.
  intros Hroom. unfold grantBonus. rewrite saveInventory_persists by done.
  by autorewrite with frame.
Qed.

(** The flag read at line 431 is the one computed from the Pokédex as the
    callback found it. *)
Lemma firstCapture_upsert (d : gmap Z PokeRecord) id enc :
  negb (p_caught (match d !! id with Some p => p | None => freshRecord id enc end))
  = firstCapture d id.
Proof. unfold firstCapture, alreadyCaught. by destruct (d !! id). Qed.

(** A completed finalisation, as the bonus block applied to the state in
    which the capture has been recorded. *)
Lemma finalizeCapture_unfold env id now s enc :
  currentEncounter s = Some enc →
  ∃ s3,
    finalizeCapture env id now s
    = setTimeout NextEncounter 120
        (if firstCapture (pokedex s) id then grantBonus env s3 else s3)
    ∧ inventory s3 = inventory s
    ∧ captureCounter s3 = captureCounter s.
Proof.
  intros Henc. unfold finalizeCapture. rewrite Henc. cbn zeta.
  rewrite firstCapture_upsert.
  eexists. split; [reflexivity|]. by simpl_state.
Qed.

Lemma finalizeCapture_cut_short env id now s :
  currentEncounter s = None →
  inventory (finalizeCapture env id now s) = inventory s
  ∧ captureCounter (finalizeCapture env id now s) = captureCounter s.
Proof.
  intros Henc. unfold finalizeCapture. rewrite Henc.
  repeat case_match; by simpl_state.
Qed.

(** The handlers other than the finalisation leave the counter alone. *)
Lemma tryCatch_captureCounter env sel s :
  captureCounter (tryCatch env sel s) = captureCounter s.
Proof. unfold tryCatch. repeat case_match; by simpl_state. Qed.

Lemma runAway_captureCounter env s : captureCounter (runAway env s) = captureCounter s.
Proof. unfold runAway. repeat case_match; by simpl_state. Qed.

Lemma encounterRandom_captureCounter roll s :
  captureCounter (encounterRandom roll s) = captureCounter s.
Proof. unfold encounterRandom. repeat case_match; by simpl_state. Qed.

Lemma encounterArrived_captureCounter env res roll s :
  captureCounter (encounterArrived env res roll s) = captureCounter s.
Proof. unfold encounterArrived. repeat case_match; by simpl_state. Qed.

Lemma resolveCapture_captureCounter env chance r roll s :
  captureCounter (resolveCapture env chance r roll s) = captureCounter s.
Proof.
  unfold resolveCapture. repeat case_match;
    rewrite ?encounterRandom_captureCounter; by simpl_state.
Qed.



(** What a completed finalisation does to the counter, the two finite item
    counts, the rest of the inventory and the stored inventory. *)
Lemma finalizeCapture_counts env id now s enc :
  currentEncounter s = Some enc →
  let first := firstCapture (pokedex s) id in
  let s' := finalizeCapture env id now s in
  captureCounter s' = (if first then captureCounter s + 1 else captureCounter s)
  ∧ inventory s'
    = (if first then bonusInventory (captureCounter s + 1) (inventory s) else inventory s)
  ∧ (first = true → roomy env →
     localStorage s' !! (STORAGE_KEY ++ "_inv")
     = Some (StoredInventory (inventory s') (captureCounter s'))).
Proof.
  intros Henc. cbn zeta.
  destruct (finalizeCapture_unfold env id now s enc Henc) as (s3 & -> & Hinv & Hc).
  destruct (firstCapture (pokedex s) id); simpl_state.
  - rewrite grantBonus_captureCounter, grantBonus_inventory, Hinv, Hc.
    repeat split. intros _ Hroom.
    rewrite grantBonus_persists by done.
    by rewrite grantBonus_captureCounter, grantBonus_inventory, Hinv, Hc.
  - by rewrite Hinv, Hc.
Qed.



(** C10. When a first capture makes the counter a multiple of 100, both
    grants fire in that finalisation: the great ball count and the ultra ball
    count each grow by exactly one. *)
Theorem hundredth_capture_grants_both env id now s enc :
  currentEncounter s = Some enc →
  firstCapture (pokedex s) id = true →
  Z.rem (captureCounter s + 1) 100 = 0 →
  let s' := finalizeCapture env id now s in
  captureCounter s' = captureCounter s + 1
  ∧ ballCount (inventory s') "greatball" = ballCount (inventory s) "greatball" + 1
  ∧ ballCount (inventory s') "ultraball" = ballCount (inventory s) "ultraball" + 1.
Proof.
  intros Henc Hfirst Hhundred. cbn zeta.
  destruct (finalizeCapture_counts env id now s enc Henc) as (Hc & Hinv & _).
  rewrite Hfirst in Hc, Hinv. rewrite Hc, Hinv.
  rewrite bonusInventory_greatball, bonusInventory_ultraball, Hhundred.
  assert (Hten : Z.rem (captureCounter s + 1) 10 = 0).
  { pose proof (Z.quot_rem' (captureCounter s + 1) 100) as Hq.
    rewrite Hhundred in Hq.
    replace (captureCounter s + 1) with ((10 * ((captureCounter s + 1) ÷ 100)) * 10)
      by lia.
    by apply Z.rem_mul. }
  by rewrite Hten.
Qed.

Lemma hundredth_capture_grants_both_witness :
  let s := demoStateAt 99 in
  let s' := finalizeCapture demoEnv 150 "2024-05-01T10:00:00.000Z" s in
  (firstCapture (pokedex s) 150 = true ∧ Z.rem (captureCounter s + 1) 100 = 0)
  ∧ captureCounter s' = 100
  ∧ ballCount (inventory s') "greatball" = 3
  ∧ ballCount (inventory s') "ultraball" = 2.
Proof.
  split; [split; reflexivity|].
  exact (hundredth_capture_grants_both demoEnv 150 "2024-05-01T10:00:00.000Z"
           (demoStateAt 99) (demoEncounter false false) eq_refl eq_refl eq_refl).
Defined.

(** ** The inventory invariant *)

Lemma ballCount_nonneg inv (k : string) :
  finiteCountsNonNegative inv → k ≠ "pokeball" → 0 ≤ ballCount inv k.
Proof.
  intros Hok Hk. unfold ballCount.
  destruct (inv !! k) as [v|] eqn:Hv; cbn; [|lia].
  by apply (Hok k v).
Qed.

Lemma keepsCounts_refl inv : keepsCounts inv inv.
Proof. by split. Qed.

Lemma keepsCounts_trans inv1 inv2 inv3 :
  keepsCounts inv1 inv2 → keepsCounts inv2 inv3 → keepsCounts inv1 inv3.
Proof. intros [H1 E1] [H2 E2]. split; [auto|congruence]. Qed.

Lemma keepsCounts_insert inv (k : string) (v : Z) :
  k ≠ "pokeball" → (finiteCountsNonNegative inv → 0 ≤ v) →
  keepsCounts inv (<[k := v]> inv).
Proof.
  intros Hk Hv. split.
  - intros Hok. apply map_Forall_insert_2; [by intros _; apply Hv|done].
  - by rewrite lookup_insert_ne.
Qed.

Lemma keepsCounts_bonus c inv : keepsCounts inv (bonusInventory c inv).
Proof.
  unfold bonusInventory.
  set (inv1 := if Z.eqb (Z.rem c 10) 0
               then <["greatball" := ballCount inv "greatball" + 1]> inv else inv).
  assert (H1 : keepsCounts inv inv1).
  { subst inv1. destruct (Z.eqb (Z.rem c 10) 0); [|apply keepsCounts_refl].
    apply keepsCounts_insert; [done|]. intros Hok.
    pose proof (ballCount_nonneg inv "greatball" Hok ltac:(done)). lia. }
  destruct (Z.eqb (Z.rem c 100) 0); [|done].
  eapply keepsCounts_trans; [exact H1|].
  apply keepsCounts_insert; [done|]. intros Hok.
  pose proof (ballCount_nonneg inv1 "ultraball" Hok ltac:(done)). lia.
Qed.

Lemma tryCatch_keepsCounts env sel s :
  keepsCounts (inventory s) (inventory (tryCatch env sel s)).
Proof.
  unfold tryCatch.
  destruct (isProcessing s); [apply keepsCounts_refl|].
  destruct (currentEncounter s); [|apply keepsCounts_refl].
  cbn zeta.
  destruct (String.eqb (chosenBall sel) "pokeball") eqn:Hball; cbn [negb];
    [simpl_state; apply keepsCounts_refl|].
  destruct (Z.leb _ 0); simpl_state; [apply keepsCounts_refl|].
  apply keepsCounts_insert; [by apply String.eqb_neq|lia].
Qed.

Lemma encounterRandom_inventory roll s : inventory (encounterRandom roll s) = inventory s.
Proof. unfold encounterRandom. case_match; by simpl_state. Qed.

Lemma finalizeCapture_keepsCounts env id now s :
  keepsCounts (inventory s) (inventory (finalizeCapture env id now s)).
Proof.
  destruct (currentEncounter s) as [enc|] eqn:Henc.
  - destruct (finalizeCapture_counts env id now s enc Henc) as (_ & -> & _).
    destruct (firstCapture (pokedex s) id);
      [apply keepsCounts_bonus|apply keepsCounts_refl].
  - destruct (finalizeCapture_cut_short env id now s Henc) as [-> _].
    apply keepsCounts_refl.
Qed.

Lemma step_keepsCounts env ev s :
  keepsCounts (inventory s) (inventory (step env ev s)).
Proof.
  destruct ev as [roll|sel| |res roll|n i| |text| ]; cbn [step].
  - rewrite encounterRandom_inventory. apply keepsCounts_refl.
  - apply tryCatch_keepsCounts.
  - unfold runAway. repeat case_match; simpl_state; apply keepsCounts_refl.
  - unfold encounterArrived. repeat case_match; simpl_state; apply keepsCounts_refl.
  - destruct (timers s !! n) as [[d task]|]; [|apply keepsCounts_refl].
    destruct task; cbn [runTask].
    + unfold resolveCapture. repeat case_match;
        rewrite ?encounterRandom_inventory; simpl_state; apply keepsCounts_refl.
    + apply (finalizeCapture_keepsCounts env id (in_now i)
               (set_timers (dequeue n (timers s)) s)).
    + unfold escape. rewrite encounterRandom_inventory. simpl_state.
      apply keepsCounts_refl.
    + unfold flee. simpl_state. apply keepsCounts_refl.
    + unfold nextEncounter. rewrite encounterRandom_inventory. simpl_state.
      apply keepsCounts_refl.
    + rewrite encounterRandom_inventory. simpl_state. apply keepsCounts_refl.
  - unfold watchdog. case_match; simpl_state; apply keepsCounts_refl.
  - unfold fileRead. case_match; simpl_state; apply keepsCounts_refl.
  - unfold resetPokedex. simpl_state. apply keepsCounts_refl.
Qed.

(** C4. Along every sequence of events of the page (capture attempts with
    any item, their resolutions and bonus grants, flights, encounters,
    imports, resets), the counts of the finite item types stay at or above
    zero once they are, and the entry of the unlimited type (-1 for the
    pokeball) is never written. *)
Theorem counts_never_negative env evs s :
  finiteCountsNonNegative (inventory s) →
  finiteCountsNonNegative (inventory (run env evs s))
  ∧ inventory (run env evs s) !! "pokeball" = inventory s !! "pokeball".
Proof.
  revert s. induction evs as [|ev evs IH]; intros s Hok; [done|].
  cbn [run].
  destruct (step_keepsCounts env ev s) as [Hstep Hsentinel].
  destruct (IH (step env ev s) (Hstep Hok)) as [Hrest Hsame].
  split; [done|congruence].
Qed.

Lemma counts_never_negative_witness :
  let s := demoState false false in
  let s' := run demoEnv demoThrows s in
  finiteCountsNonNegative (inventory s)
  ∧ finiteCountsNonNegative (inventory s')
  ∧ inventory s' !! "pokeball" = Some (-1)
  ∧ inventory s' !! "greatball" = Some 0.
Proof.
  assert (Hstart : finiteCountsNonNegative (inventory (demoState false false))).
  { apply (bool_decide_unpack _). vm_compute. exact I. }
  split; [exact Hstart|].
  destruct (counts_never_negative demoEnv demoThrows (demoState false false) Hstart)
    as [Hok Hsentinel].
  split; [exact Hok|]. split; [exact Hsentinel|]. reflexivity.
Defined.

(** ** Scenarios of section 8 of the specification *)

(** Inventory [{pokeball: unlimited, greatball: 2, ultraball: 1}], a plain
    encounter, a great ball and a draw of 0.0: one great ball is left, the
    creature is marked caught and one capture is counted. *)
Example scenario_great_ball_success :
  let s := run demoEnv [ClickCatch (Some "greatball"); Fire 0 (demoInputs 0%float);
                        Fire 0 (demoInputs 0%float)] (demoState false false) in
  inventory s !! "greatball" = Some 1
  ∧ alreadyCaught (pokedex s) 150 = true
  ∧ captureCounter s = 1
  ∧ currentEncounter s = None
  ∧ timers s = [(120, NextEncounter)].
Proof. vm_compute. by repeat split. Qed.

(** A draw of 0.99 on a plain encounter: nothing is stored, the encounter is
    cleared and the next one is requested. *)
Example scenario_failed_capture :
  let s := run demoEnv [ClickCatch None; Fire 0 (demoInputs 0.99%float);
                        Fire 0 (demoInputs 0.99%float)] (demoState false false) in
  pokedex s = ∅
  ∧ inventory s = inventory initial
  ∧ captureCounter s = 0
  ∧ currentEncounter s = None
  ∧ isProcessing s = false
  ∧ isFetchingEncounter s = true
  ∧ requests s = [25].
Proof. vm_compute. by repeat split. Qed.

(** Ten first captures in a row grant one great ball, at the tenth and not
    before. *)
Example scenario_bonus_cadence :
  inventory (captureMany 9 1 initial) !! "greatball" = Some 2
  ∧ inventory (captureMany 10 1 initial) !! "greatball" = Some 3
  ∧ inventory (captureMany 10 1 initial) !! "ultraball" = Some 1
  ∧ captureCounter (captureMany 10 1 initial) = 10.
Proof. vm_compute. by repeat split. Qed.

(** * Further properties of the script *)

(** ** More frame lemmas *)

Ltac frame_bonus :=
  intros; unfold grantBonus; autorewrite with frame; cbn zeta;
  repeat match goal with |- context [if ?b then _ else _] => destruct b end;
  by simpl_state.

Lemma grantBonus_isProcessing env s : isProcessing (grantBonus env s) = isProcessing s.
Proof. frame_bonus. Qed.

Lemma grantBonus_processingTimer env s :
  _processingTimer (grantBonus env s) = _processingTimer s.
Proof. frame_bonus. Qed.

Lemma grantBonus_isFetchingEncounter env s :
  isFetchingEncounter (grantBonus env s) = isFetchingEncounter s.
Proof. frame_bonus. Qed.

Lemma grantBonus_currentEncounter env s :
  currentEncounter (grantBonus env s) = currentEncounter s.
Proof. frame_bonus. Qed.

Lemma grantBonus_requests env s : requests (grantBonus env s) = requests s.
Proof. frame_bonus. Qed.

#[global] Hint Rewrite
  grantBonus_pokedex grantBonus_timers grantBonus_isProcessing
  grantBonus_processingTimer grantBonus_isFetchingEncounter
  grantBonus_currentEncounter grantBonus_requests : frame.

(** Unfolds the handlers and callbacks, splits on every test they make and
    reads the variables back. *)
Ltac split_handlers :=
  unfold tryCatch, runAway, resolveCapture, finalizeCapture, escape, flee,
    nextEncounter, encounterRandom, encounterArrived, watchdog, fileRead,
    resetPokedex;
  cbv zeta;
  repeat case_match;
  simpl_state.

(** ** The guard and its watchdog *)

Lemma step_guard_watchdog env ev s :
  isProcessing s = _processingTimer s →
  isProcessing (step env ev s) = _processingTimer (step env ev s).
Proof.
  intros Hsame.
  destruct ev as [roll|sel| |res roll|n i| |text| ]; cbn [step];
    try (split_handlers; congruence).
  destruct (timers s !! n) as [[d task]|]; [|done].
  destruct task; cbn [runTask]; split_handlers; congruence.
Qed.

(** X1. The guard flag and the watchdog timer move together: along every
    sequence of events, whenever [isProcessing] is set the 6000 ms watchdog
    is armed, so that the watchdog can always lower the guard again; no
    sequence of events leaves the page locked for good. *)
Theorem guard_always_has_watchdog env evs s :
  isProcessing s = _processingTimer s →
  let s' := run env evs s in
  isProcessing s' = _processingTimer s'
  ∧ isProcessing (step env WatchdogFires s') = false.
Proof.
  revert s. induction evs as [|ev evs IH]; intros s Hsame.
  - cbn. split; [done|]. unfold watchdog.
    destruct (_processingTimer s) eqn:Htimer; simpl_state; congruence.
  - cbn [run]. apply IH. by apply step_guard_watchdog.
Qed.

Lemma guard_always_has_watchdog_witness :
  let s' := run demoEnv demoThrows (demoState false false) in
  isProcessing (demoState false false) = _processingTimer (demoState false false)
  ∧ isProcessing s' = _processingTimer s'
  ∧ isProcessing (step demoEnv WatchdogFires s') = false.
Proof.
  split; [reflexivity|].
  exact (guard_always_has_watchdog demoEnv demoThrows (demoState false false) eq_refl).
Defined.

(** ** An accepted attempt *)

(** X2. An accepted attempt raises the guard and leaves the Pokédex, the
    counter and the encounter alone.  With the unlimited pokeball the
    inventory and the storage are untouched; with any other item exactly one
    unit is taken from its count and the inventory is saved at once, before
    the outcome is known. *)
Theorem accepted_attempt_consumes_one env sel s enc :
  isProcessing s = false →
  currentEncounter s = Some enc →
  ballAvailable (inventory s) (chosenBall sel) = true →
  let ball := chosenBall sel in
  let s' := tryCatch env sel s in
  isProcessing s' = true
  ∧ _processingTimer s' = true
  ∧ pokedex s' = pokedex s
  ∧ captureCounter s' = captureCounter s
  ∧ currentEncounter s' = Some enc
  ∧ (ball = "pokeball" →
     inventory s' = inventory s ∧ localStorage s' = localStorage s)
  ∧ (ball ≠ "pokeball" →
     inventory s' = <[ball := ballCount (inventory s) ball - 1]> (inventory s)
     ∧ (roomy env →
        localStorage s' !! (STORAGE_KEY ++ "_inv")
        = Some (StoredInventory (inventory s') (captureCounter s)))).
Proof.
  intros Hidle Henc Hball. cbn zeta. unfold tryCatch, ballAvailable in *.
  rewrite Hidle, Henc. cbn zeta.
  destruct (String.eqb (chosenBall sel) "pokeball") eqn:Hdefault; cbn [negb orb] in *.
  - apply String.eqb_eq in Hdefault. simpl_state.
    by split_and!.
  - apply String.eqb_neq in Hdefault. apply Z.ltb_lt in Hball.
    assert (Hzero : Z.leb (ballCount (inventory s) (chosenBall sel)) 0 = false)
      by by apply Z.leb_gt.
    simpl_state. rewrite Hzero. simpl_state. rewrite Z.max_r by lia.
    split_and!; try done. intros _. split; [done|].
    intros Hroom. rewrite saveInventory_persists by done. by simpl_state.
Qed.

Lemma accepted_attempt_consumes_one_witness :
  let s := demoState false false in
  let s' := tryCatch demoEnv (Some "greatball") s in
  (isProcessing s = false ∧ ballAvailable (inventory s) "greatball" = true)
  ∧ isProcessing s' = true
  ∧ inventory s' !! "greatball" = Some 1
  ∧ localStorage s' !! "pokedex_v1_inv" = Some (StoredInventory (inventory s') 0).
Proof.
  split; [split; reflexivity|].
  destruct (accepted_attempt_consumes_one demoEnv (Some "greatball")
              (demoState false false) (demoEncounter false false)
              eq_refl eq_refl eq_refl)
    as (Hbusy & _ & _ & _ & _ & _ & Hfinite).
  destruct (Hfinite ltac:(discriminate)) as [Hinv Hstored].
  split; [exact Hbusy|].
  split; [rewrite Hinv; apply lookup_insert_eq|].
  apply Hstored. by intros ? ? ?.
Defined.

(** ** Flight *)

(** X3. An accepted flight writes no store: once its callbacks have run
    (the 700 ms one when the page has its image element, then the 300 ms
    one), the Pokédex, the inventory, the counter and the storage are as
    before, the encounter is cleared, the guard is down and a catalogue
    request is in flight.  Without the image element the guard is lowered by
    the click itself, 300 ms before the next encounter is asked for. *)
Theorem flight_returns_to_idle env s enc i1 i2 :
  isProcessing s = false →
  currentEncounter s = Some enc →
  let n := length (timers s) in
  let s1 := step env ClickRun s in
  let s2 := if pokeImage env then step env (Fire n i1) s1 else s1 in
  let s3 := step env (Fire n i2) s2 in
  isProcessing s1 = pokeImage env
  ∧ isProcessing s2 = pokeImage env
  ∧ currentEncounter s2 = None
  ∧ pokedex s3 = pokedex s
  ∧ inventory s3 = inventory s
  ∧ captureCounter s3 = captureCounter s
  ∧ localStorage s3 = localStorage s
  ∧ currentEncounter s3 = None
  ∧ isProcessing s3 = false
  ∧ _processingTimer s3 = false
  ∧ timers s3 = timers s
  ∧ isFetchingEncounter s3 = true
  ∧ requests s3
    = (if isFetchingEncounter s then requests s else (in_roll i2 + 1) :: requests s).
Proof.
  intros Hidle Henc. cbn zeta.
  change (step env ClickRun s) with (runAway env s). unfold runAway.
  rewrite Hidle, Henc. cbn zeta.
  destruct (pokeImage env).
  - rewrite (fire_queued env _ _ i1 s (startProcessing s)) by done.
    cbn [runTask]. unfold flee.
    rewrite (fire_queued env _ _ i2 s) by done.
    cbn [runTask]. unfold nextEncounter, encounterRandom. simpl_state.
    destruct (isFetchingEncounter s) eqn:Hfetch; simpl_state; by rewrite ?Hfetch.
  - rewrite (fire_queued env _ _ i2 s) by done.
    cbn [runTask]. unfold encounterRandom. simpl_state.
    destruct (isFetchingEncounter s) eqn:Hfetch; simpl_state; by rewrite ?Hfetch.
Qed.

Lemma flight_returns_to_idle_witness :
  let s := demoState false false in
  let i := demoInputs 0.5%float in
  (isProcessing s = false ∧ currentEncounter s = Some (demoEncounter false false))
  ∧ let n := length (timers s) in
    let s1 := step demoEnv ClickRun s in
    let s2 := if pokeImage demoEnv then step demoEnv (Fire n i) s1 else s1 in
    let s3 := step demoEnv (Fire n i) s2 in
    isProcessing s1 = pokeImage demoEnv
    ∧ isProcessing s2 = pokeImage demoEnv
    ∧ currentEncounter s2 = None
    ∧ pokedex s3 = pokedex s
    ∧ inventory s3 = inventory s
    ∧ captureCounter s3 = captureCounter s
    ∧ localStorage s3 = localStorage s
    ∧ currentEncounter s3 = None
    ∧ isProcessing s3 = false
    ∧ _processingTimer s3 = false
    ∧ timers s3 = timers s
    ∧ isFetchingEncounter s3 = true
    ∧ requests s3
      = (if isFetchingEncounter s then requests s else (in_roll i + 1) :: requests s).
Proof.
  split; [split; reflexivity|].
  exact (flight_returns_to_idle demoEnv (demoState false false)
           (demoEncounter false false) (demoInputs 0.5%float) (demoInputs 0.5%float)
           eq_refl eq_refl).
Defined.

(** ** A successful capture, from the click to the next encounter *)

Lemma tryCatch_shape env sel s enc :
  isProcessing s = false →
  currentEncounter s = Some enc →
  ballAvailable (inventory s) (chosenBall sel) = true →
  ∃ s1,
    tryCatch env sel s
    = setTimeout (ResolveCapture (captureChance (pokedex s) enc (chosenBall sel))) 600 s1
    ∧ timers s1 = timers s
    ∧ currentEncounter s1 = Some enc
    ∧ pokedex s1 = pokedex s
    ∧ isFetchingEncounter s1 = isFetchingEncounter s
    ∧ requests s1 = requests s.
Proof.
  intros Hidle Henc Hball. unfold tryCatch, ballAvailable in *.
  rewrite Hidle, Henc. cbn.
  destruct (String.eqb (chosenBall sel) "pokeball") eqn:Hdefault; cbn in *.
  - eexists. split; [reflexivity|]. by simpl_state.
  - apply Z.ltb_lt in Hball.
    destruct (Z.leb (ballCount (inventory s) (chosenBall sel)) 0) eqn:Hzero.
    + apply Z.leb_le in Hzero. lia.
    + eexists. split; [reflexivity|]. by simpl_state.
Qed.

Lemma finalizeCapture_shape env id now s enc :
  currentEncounter s = Some enc →
  ∃ sF,
    finalizeCapture env id now s = setTimeout NextEncounter 120 sF
    ∧ timers sF = timers s
    ∧ currentEncounter sF = None
    ∧ isProcessing sF = isProcessing s
    ∧ isFetchingEncounter sF = isFetchingEncounter s
    ∧ requests sF = requests s
    ∧ pokedex sF = <[id := capturedRecord now id enc (pokedex s)]> (pokedex s).
Proof.
  intros Henc. unfold finalizeCapture, capturedRecord. rewrite Henc. cbn zeta.
  eexists. split; [reflexivity|].
  match goal with |- context [if ?b then _ else _] => destruct b end; by simpl_state.
Qed.

(** X4. A capture that succeeds runs to its end: after the click, the
    600 ms resolution, the 420 ms finalisation and the 120 ms continuation
    the creature is marked caught, the encounter is cleared, the guard is
    down with its watchdog disarmed, no callback of the attempt is left
    pending and a catalogue request is in flight. *)
Theorem capture_returns_to_idle env sel s enc i1 i2 i3 :
  isProcessing s = false →
  currentEncounter s = Some enc →
  ballAvailable (inventory s) (chosenBall sel) = true →
  PrimFloat.ltb (in_random i1) (captureChance (pokedex s) enc (chosenBall sel)) = true →
  let n := length (timers s) in
  let s' := run env [ClickCatch sel; Fire n i1; Fire n i2; Fire n i3] s in
  alreadyCaught (pokedex s') (e_id enc) = true
  ∧ currentEncounter s' = None
  ∧ isProcessing s' = false
  ∧ _processingTimer s' = false
  ∧ timers s' = timers s
  ∧ isFetchingEncounter s' = true
  ∧ requests s'
    = (if isFetchingEncounter s then requests s else (in_roll i3 + 1) :: requests s).
Proof.
  intros Hidle Henc Hball Hdraw. cbn zeta. cbn [run].
  change (step env (ClickCatch sel) s) with (tryCatch env sel s).
  destruct (tryCatch_shape env sel s enc Hidle Henc Hball)
    as (s1 & -> & Ht1 & Henc1 & Hdex1 & Hf1 & Hr1).
  rewrite (fire_queued env _ _ i1 s s1 Ht1). cbn [runTask].
  unfold resolveCapture. rewrite Henc1, Hdraw.
  rewrite (fire_queued env _ _ i2 s s1 Ht1). cbn [runTask].
  destruct (finalizeCapture_shape env (e_id enc) (in_now i2) s1 enc Henc1)
    as (sF & -> & HtF & HencF & _ & HfF & HrF & HdexF).
  rewrite (fire_queued env _ _ i3 s sF) by congruence. cbn [runTask].
  unfold nextEncounter, encounterRandom. simpl_state.
  rewrite HfF, Hf1.
  destruct (isFetchingEncounter s); simpl_state;
    (split_and!; try done; try congruence);
    unfold alreadyCaught; rewrite HdexF, lookup_insert_eq;
    apply capturedRecord_caught.
Qed.

Lemma capture_returns_to_idle_witness :
  let s := demoState false false in
  let s' := run demoEnv [ClickCatch None; Fire 0 (demoInputs 0.2%float);
                         Fire 0 (demoInputs 0.2%float); Fire 0 (demoInputs 0.2%float)] s in
  (ballAvailable (inventory s) "pokeball" = true
   ∧ PrimFloat.ltb 0.2%float (captureChance (pokedex s) (demoEncounter false false) "pokeball")
     = true)
  ∧ alreadyCaught (pokedex s') 150 = true
  ∧ currentEncounter s' = None
  ∧ isProcessing s' = false
  ∧ _processingTimer s' = false
  ∧ timers s' = []
  ∧ isFetchingEncounter s' = true
  ∧ requests s' = [25].
Proof.
  split; [split; reflexivity|].
  exact (capture_returns_to_idle demoEnv None (demoState false false)
           (demoEncounter false false) (demoInputs 0.2%float) (demoInputs 0.2%float)
           (demoInputs 0.2%float) eq_refl eq_refl eq_refl eq_refl).
Defined.

(** ** Saving *)


(** ** Reloading the page *)

(** X6. What [saveInventory()] stored is what [loadInventory()] reads
    back after a reload: the capture counter is the saved one, and every
    saved count comes back, the initial counts filling in the items the
    saved inventory did not have. *)
Theorem inventory_survives_reload env s :
  roomy env →
  ∃ s',
    loadInventory (reloaded (saveInventory env s)) = Some s'
    ∧ captureCounter s' = captureCounter s
    ∧ ∀ k : string,
        inventory s' !! k
        = match inventory s !! k with
          | Some v => Some v
          | None => inventory initial !! k
          end.
Proof.
  intros Hroom. unfold loadInventory, reloaded. simpl_state.
  rewrite saveInventory_persists by done. cbn [asInventoryData].
  eexists. split; [reflexivity|]. simpl_state. split.
  - destruct (Z.eqb (captureCounter s) 0) eqn:Hzero; [|done].
    apply Z.eqb_eq in Hzero. by rewrite Hzero.
  - intros k. rewrite lookup_union.
    by destruct (inventory s !! k), (inventory initial !! k).
Qed.

Lemma inventory_survives_reload_witness :
  ∃ s',
    loadInventory (reloaded (saveInventory demoEnv (demoStateAt 9))) = Some s'
    ∧ captureCounter s' = 9
    ∧ ∀ k : string,
        inventory s' !! k
        = match inventory (demoStateAt 9) !! k with
          | Some v => Some v
          | None => inventory initial !! k
          end.
Proof.
  exact (inventory_survives_reload demoEnv (demoStateAt 9) (λ _ _ _, eq_refl)).
Defined.

(** X7. What [save()] stored is the Pokédex [init()] starts from after a
    reload: the whole Pokédex when the browser accepted it; when only the
    compact write was accepted, exactly the entries that were marked caught,
    the other entries being lost. *)
Theorem pokedex_survives_reload env s :
  (quota env (localStorage s) STORAGE_KEY (StoredPokedex (pokedex s)) = true →
   ∃ s', loadPokedex (reloaded (save env s)) = Some s' ∧ pokedex s' = pokedex s)
  ∧ (quota env (localStorage s) STORAGE_KEY (StoredPokedex (pokedex s)) = false →
     quota env (localStorage s) STORAGE_KEY (StoredPokedex (caughtOnly (pokedex s)))
     = true →
     ∃ s',
       loadPokedex (reloaded (save env s)) = Some s'
       ∧ ∀ (id : Z) (p : PokeRecord),
           pokedex s' !! id = Some p ↔ pokedex s !! id = Some p ∧ p_caught p = true).
Proof.
  unfold loadPokedex, reloaded, save, setItem. split.
  - intros ->. simpl_state. rewrite lookup_insert_eq.
    eexists. split; [reflexivity|]. by simpl_state.
  - intros -> ->. simpl_state. rewrite lookup_insert_eq.
    eexists. split; [reflexivity|]. simpl_state.
    intros id p. unfold caughtOnly. by rewrite map_lookup_filter_Some.
Qed.

Lemma pokedex_survives_reload_witness :
  let s := scenarioTwoEntries in
  (quota tightEnv (localStorage s) STORAGE_KEY (StoredPokedex (pokedex s)) = false
   ∧ quota tightEnv (localStorage s) STORAGE_KEY (StoredPokedex (caughtOnly (pokedex s)))
     = true)
  ∧ ∃ s',
      loadPokedex (reloaded (save tightEnv s)) = Some s'
      ∧ ∀ (id : Z) (p : PokeRecord),
          pokedex s' !! id = Some p ↔ pokedex s !! id = Some p ∧ p_caught p = true.
Proof.
  assert (Hfull : quota tightEnv (localStorage scenarioTwoEntries) STORAGE_KEY
                    (StoredPokedex (pokedex scenarioTwoEntries)) = false)
    by by vm_compute.
  assert (Hcompact : quota tightEnv (localStorage scenarioTwoEntries) STORAGE_KEY
                       (StoredPokedex (caughtOnly (pokedex scenarioTwoEntries))) = true)
    by by vm_compute.
  split; [split; [exact Hfull|exact Hcompact]|].
  destruct (pokedex_survives_reload tightEnv scenarioTwoEntries) as [_ Hreload].
  exact (Hreload Hfull Hcompact).
Defined.

(** ** Reset and import *)

(** X8. A reset empties the Pokédex and nothing else: the inventory, the
    capture counter, the guard and the pending callbacks are kept.  The next
    capture that completes, also of a creature counted before the reset, is
    therefore a first capture again: the counter goes on from where it was
    and the capture gets a new timestamp. *)
Theorem reset_keeps_counter_and_inventory env id now s enc :
  currentEncounter s = Some enc →
  let s1 := resetPokedex env s in
  let s2 := finalizeCapture env id now s1 in
  pokedex s1 = ∅
  ∧ inventory s1 = inventory s
  ∧ captureCounter s1 = captureCounter s
  ∧ isProcessing s1 = isProcessing s
  ∧ timers s1 = timers s
  ∧ captureCounter s2 = captureCounter s + 1
  ∧ capturedAtOf (pokedex s2) id = Some now.
Proof.
  intros Henc. cbn zeta.
  assert (Henc1 : currentEncounter (resetPokedex env s) = Some enc)
    by (unfold resetPokedex; by simpl_state).
  assert (Hdex1 : pokedex (resetPokedex env s) = ∅)
    by (unfold resetPokedex; by simpl_state).
  assert (Hc1 : captureCounter (resetPokedex env s) = captureCounter s)
    by (unfold resetPokedex; by simpl_state).
  destruct (finalizeCapture_counts env id now _ enc Henc1) as (Hc & _).
  unfold firstCapture, alreadyCaught in Hc.
  rewrite Hdex1, lookup_empty, Hc1 in Hc. cbn in Hc.
  rewrite (finalizeCapture_pokedex env id now _ enc Henc1), Hdex1.
  split_and!; try done; try (unfold resetPokedex; by simpl_state).
  unfold capturedAtOf.
  rewrite lookup_insert_eq, capturedRecord_capturedAt.
  unfold capturedAtOf. by rewrite lookup_empty.
Qed.

Lemma reset_keeps_counter_and_inventory_witness :
  let s := demoStateAt 9 in
  let s2 := finalizeCapture demoEnv 150 "2024-06-09T08:30:00.000Z" (resetPokedex demoEnv s) in
  currentEncounter s = Some (demoEncounter false false)
  ∧ captureCounter s2 = 10
  ∧ capturedAtOf (pokedex s2) 150 = Some "2024-06-09T08:30:00.000Z".
Proof.
  split; [reflexivity|].
  destruct (reset_keeps_counter_and_inventory demoEnv 150 "2024-06-09T08:30:00.000Z"
              (demoStateAt 9) (demoEncounter false false) eq_refl)
    as (_ & _ & _ & _ & _ & Hc & Hat).
  split; [exact Hc|exact Hat].
Defined.

(** ** Encounters *)



(** X11. An encounter that arrives while a capture is being resolved
    becomes the target of that capture: the probability is the one computed
    at the click, for the encounter of that moment, while the creature that
    the finalisation will record is the one present when the 600 ms callback
    runs. *)
Theorem arriving_encounter_replaces_target env sel s enc data species shinyRoll i :
  isProcessing s = false →
  currentEncounter s = Some enc →
  isFetchingEncounter s = true →
  ballAvailable (inventory s) (chosenBall sel) = true →
  PrimFloat.ltb (in_random i) (captureChance (pokedex s) enc (chosenBall sel)) = true →
  let n := length (timers s) in
  let s' := run env [ClickCatch sel; Fetched (FetchOk data species) shinyRoll; Fire n i] s in
  timers s' = (timers s ++ [(420, FinalizeCapture (api_id data))])%list
  ∧ currentEncounter s' = Some (makeEncounter env data species shinyRoll).
Proof.
  intros Hidle Henc Hfetch Hball Hdraw. cbn zeta. cbn [run].
  change (step env (ClickCatch sel) s) with (tryCatch env sel s).
  destruct (tryCatch_shape env sel s enc Hidle Henc Hball)
    as (s1 & -> & Ht1 & Henc1 & Hdex1 & Hf1 & Hr1).
  change (step env (Fetched (FetchOk data species) shinyRoll) ?x)
    with (encounterArrived env (FetchOk data species) shinyRoll x).
  set (s2 := encounterArrived env (FetchOk data species) shinyRoll (setTimeout _ 600 s1)).
  assert (Ht2 : timers s2
                = (timers s ++ [(600, ResolveCapture
                                        (captureChance (pokedex s) enc (chosenBall sel)))])%list).
  { subst s2. unfold encounterArrived. simpl_state. rewrite Hf1, Hfetch. cbn [negb].
    cbv zeta. repeat case_match; simpl_state; by rewrite Ht1. }
  assert (Henc2 : currentEncounter s2 = Some (makeEncounter env data species shinyRoll)).
  { subst s2. unfold encounterArrived. simpl_state. rewrite Hf1, Hfetch. cbn [negb].
    cbv zeta. repeat case_match; by simpl_state. }
  cbn [step]. rewrite Ht2, lookup_app_r by lia.
  replace (length (timers s) - length (timers s))%nat with 0%nat by lia.
  cbn [lookup list_lookup]. rewrite dequeue_last. cbn [runTask].
  unfold resolveCapture. simpl_state. rewrite Henc2, Hdraw. by simpl_state.
Qed.

Lemma arriving_encounter_replaces_target_witness :
  let s := encounterRandom 149 (demoState false false) in
  let rattata := {| api_id := 19; api_name := "rattata";
                    api_front_default := Some "rattata.png";
                    api_front_shiny := None; api_types := ["normal"] |} in
  let s' := run demoEnv [ClickCatch None; Fetched (FetchOk rattata (Some false)) 7;
                         Fire 0 (demoInputs 0.2%float)] s in
  (isFetchingEncounter s = true
   ∧ PrimFloat.ltb 0.2%float
       (captureChance (pokedex s) (demoEncounter false false) "pokeball") = true)
  ∧ timers s' = [(420, FinalizeCapture 19)].
Proof.
  split; [split; reflexivity|].
  destruct (arriving_encounter_replaces_target demoEnv None
              (encounterRandom 149 (demoState false false)) (demoEncounter false false)
              {| api_id := 19; api_name := "rattata";
                 api_front_default := Some "rattata.png";
                 api_front_shiny := None; api_types := ["normal"] |}
              (Some false) 7 (demoInputs 0.2%float)
              eq_refl eq_refl eq_refl eq_refl eq_refl) as [Htimers _].
  exact Htimers.
Defined.

(** Firing the first of the callbacks queued after those of [s]. *)
Lemma fire_next env i s sA d t rest :
  timers sA = (timers s ++ (d, t) :: rest)%list →
  step env (Fire (length (timers s)) i) sA
  = runTask env t i (set_timers (timers s ++ rest) sA).
Proof.
  intros HA. cbn [step]. rewrite HA, lookup_app_r by lia.
  replace (length (timers s) - length (timers s))%nat with 0%nat by lia.
  cbn [lookup list_lookup]. unfold dequeue.
  rewrite take_app_length, drop_app_ge by lia.
  by replace (S (length (timers s)) - length (timers s))%nat with 1%nat by lia.
Qed.

Lemma encounterRandom_summary roll s :
  timers (encounterRandom roll s) = timers s
  ∧ isFetchingEncounter (encounterRandom roll s) = true
  ∧ requests (encounterRandom roll s)
    = (if isFetchingEncounter s then requests s else (roll + 1) :: requests s).
Proof.
  unfold encounterRandom.
  destruct (isFetchingEncounter s) eqn:Hfetch; by simpl_state.
Qed.

Lemma encounterArrived_summary env res shinyRoll s :
  isFetchingEncounter s = true →
  timers (encounterArrived env res shinyRoll s) = timers s
  ∧ isFetchingEncounter (encounterArrived env res shinyRoll s) = false
  ∧ requests (encounterArrived env res shinyRoll s) = requests s.
Proof.
  intros Hfetch. unfold encounterArrived. rewrite Hfetch. cbn [negb]. cbv zeta.
  repeat case_match; by simpl_state.
Qed.

(** X12. The button for three encounters asks the catalogue once when no
    answer arrives within its 500 ms: the two delayed calls find a request
    in flight and return.  When each answer arrives before the next call,
    three requests are made. *)
Theorem three_encounters_single_flight env roll s i1 i2 res1 roll1 res2 roll2 :
  isFetchingEncounter s = false →
  let n := length (timers s) in
  let slow := run env [Fire n i1; Fire n i2] (clickRandom3 roll s) in
  let fast := run env [Fetched res1 roll1; Fire n i1; Fetched res2 roll2; Fire n i2]
                  (clickRandom3 roll s) in
  requests slow = (roll + 1) :: requests s
  ∧ isFetchingEncounter slow = true
  ∧ timers slow = timers s
  ∧ requests fast = (in_roll i2 + 1) :: (in_roll i1 + 1) :: (roll + 1) :: requests s
  ∧ isFetchingEncounter fast = true
  ∧ timers fast = timers s.
Proof.
  intros Hidle. cbn zeta.
  destruct (encounterRandom_summary roll s) as (Ht0 & Hf0 & Hr0).
  rewrite Hidle in Hr0.
  set (sA := clickRandom3 roll s).
  assert (HtA : timers sA
                = (timers s ++ [(250, AutoEncounter); (500, AutoEncounter)])%list).
  { subst sA. unfold clickRandom3. simpl_state. by rewrite Ht0, <- app_assoc. }
  assert (HfA : isFetchingEncounter sA = true)
    by (subst sA; unfold clickRandom3; by simpl_state).
  assert (HrA : requests sA = (roll + 1) :: requests s)
    by (subst sA; unfold clickRandom3; by simpl_state).
  assert (Hslow : requests (run env [Fire (length (timers s)) i1;
                                     Fire (length (timers s)) i2] sA)
                  = (roll + 1) :: requests s
                  ∧ isFetchingEncounter (run env [Fire (length (timers s)) i1;
                                                  Fire (length (timers s)) i2] sA) = true
                  ∧ timers (run env [Fire (length (timers s)) i1;
                                     Fire (length (timers s)) i2] sA) = timers s).
  { cbn [run]. rewrite (fire_next env i1 s sA _ _ _ HtA). cbn [runTask].
    set (sA' := set_timers _ sA).
    destruct (encounterRandom_summary (in_roll i1) sA') as (Ht1 & Hf1 & Hr1).
    assert (isFetchingEncounter sA' = true) as HfA' by (subst sA'; by simpl_state).
    rewrite HfA' in Hr1.
    rewrite (fire_next env i2 s (encounterRandom (in_roll i1) sA') 500 AutoEncounter []);
      [|rewrite Ht1; subst sA'; by simpl_state].
    cbn [runTask]. set (sB' := set_timers _ _).
    destruct (encounterRandom_summary (in_roll i2) sB') as (Ht2 & Hf2 & Hr2).
    assert (isFetchingEncounter sB' = true) as HfB' by (subst sB'; by simpl_state).
    rewrite HfB' in Hr2. rewrite Ht2, Hf2, Hr2.
    subst sB'. simpl_state. rewrite Hr1. subst sA'. simpl_state.
    by rewrite HrA, app_nil_r. }
  destruct Hslow as (Hs1 & Hs2 & Hs3).
  split; [exact Hs1|]. split; [exact Hs2|]. split; [exact Hs3|].
  cbn [run].
  change (step env (Fetched res1 roll1) sA) with (encounterArrived env res1 roll1 sA).
  destruct (encounterArrived_summary env res1 roll1 sA HfA) as (Ht1 & Hf1 & Hr1).
  set (s1 := encounterArrived env res1 roll1 sA) in *.
  rewrite (fire_next env i1 s s1 250 AutoEncounter [(500, AutoEncounter)])
    by by rewrite Ht1.
  cbn [runTask]. set (s1' := set_timers _ s1).
  destruct (encounterRandom_summary (in_roll i1) s1') as (Ht2 & Hf2 & Hr2).
  assert (isFetchingEncounter s1' = false) as Hf1' by (subst s1'; by simpl_state).
  rewrite Hf1' in Hr2.
  set (s2 := encounterRandom (in_roll i1) s1') in *.
  change (step env (Fetched res2 roll2) s2) with (encounterArrived env res2 roll2 s2).
  destruct (encounterArrived_summary env res2 roll2 s2 Hf2) as (Ht3 & Hf3 & Hr3).
  set (s3 := encounterArrived env res2 roll2 s2) in *.
  rewrite (fire_next env i2 s s3 500 AutoEncounter [])
    by (rewrite Ht3, Ht2; subst s1'; by simpl_state).
  cbn [runTask]. set (s3' := set_timers _ s3).
  destruct (encounterRandom_summary (in_roll i2) s3') as (Ht4 & Hf4 & Hr4).
  assert (isFetchingEncounter s3' = false) as Hf3' by (subst s3'; by simpl_state).
  rewrite Hf3' in Hr4. rewrite Ht4, Hf4, Hr4.
  subst s3'. simpl_state. rewrite Hr3, Hr2. subst s1'. simpl_state.
  by rewrite Hr1, HrA, app_nil_r.
Qed.

Lemma three_encounters_single_flight_witness :
  let i := demoInputs 0.5%float in
  let slow := run demoEnv [Fire 0 i; Fire 0 i] (clickRandom3 3 initial) in
  isFetchingEncounter initial = false
  ∧ requests slow = [4]
  ∧ isFetchingEncounter slow = true
  ∧ timers slow = [].
Proof.
  split; [reflexivity|].
  destruct (three_encounters_single_flight demoEnv 3 initial (demoInputs 0.5%float)
              (demoInputs 0.5%float) FetchFailed 0 FetchFailed 0 eq_refl)
    as (Hr & Hf & Ht & _).
  split; [exact Hr|]. split; [exact Hf|exact Ht].
Defined.

(** ** The capture counter and the number of caught entries *)

Lemma caughtOnly_lookup d (id : Z) :
  caughtOnly d !! id = (if alreadyCaught d id then d !! id else None).
Proof.
  unfold caughtOnly, alreadyCaught.
  destruct (d !! id) as [p|] eqn:Hp.
  - destruct (p_caught p) eqn:Hc.
    + by apply map_lookup_filter_Some.
    + apply map_lookup_filter_None. right. intros q Hq. cbn. congruence.
  - apply map_lookup_filter_None. by left.
Qed.

Lemma caughtCount_insert_caught d (id : Z) p :
  p_caught p = true →
  caughtCount (<[id := p]> d)
  = if alreadyCaught d id then caughtCount d else S (caughtCount d).
Proof.
  intros Hp. unfold caughtCount, caughtOnly.
  rewrite map_filter_insert_True by done.
  fold (caughtOnly d).
  pose proof (caughtOnly_lookup d id) as Hlook.
  destruct (alreadyCaught d id) eqn:Hc.
  - unfold alreadyCaught in Hc. destruct (d !! id) as [q|] eqn:Hq; [|done].
    by apply map_size_insert_Some.
  - by apply map_size_insert_None.
Qed.

Lemma finalizeCapture_counter_le env id now s :
  captureCounter s ≤ Z.of_nat (caughtCount (pokedex s)) →
  captureCounter (finalizeCapture env id now s)
  ≤ Z.of_nat (caughtCount (pokedex (finalizeCapture env id now s))).
Proof.
  intros Hle.
  destruct (currentEncounter s) as [enc|] eqn:Henc.
  - destruct (finalizeCapture_counts env id now s enc Henc) as (-> & _).
    rewrite (finalizeCapture_pokedex env id now s enc Henc).
    rewrite caughtCount_insert_caught by apply capturedRecord_caught.
    unfold firstCapture. destruct (alreadyCaught (pokedex s) id); cbn [negb]; lia.
  - destruct (finalizeCapture_cut_short env id now s Henc) as [_ ->].
    unfold finalizeCapture. rewrite Henc.
    destruct (pokedex s !! id) as [p0|] eqn:Hp0; [|done].
    destruct (truthy (p_sprite (with_caught p0))); simpl_state;
      rewrite caughtCount_insert_caught by (unfold stamp; by repeat case_match);
      destruct (alreadyCaught (pokedex s) id); lia.
Qed.

Lemma step_counter_le env ev s :
  resolverEvent ev = true →
  captureCounter s ≤ Z.of_nat (caughtCount (pokedex s)) →
  captureCounter (step env ev s) ≤ Z.of_nat (caughtCount (pokedex (step env ev s))).
Proof.
  intros Hev Hle.
  destruct ev as [roll|sel| |res roll|n i| |text| ]; cbn [step]; try discriminate.
  - by rewrite encounterRandom_pokedex, encounterRandom_captureCounter.
  - by rewrite tryCatch_pokedex, tryCatch_captureCounter.
  - by rewrite runAway_pokedex, runAway_captureCounter.
  - by rewrite encounterArrived_pokedex, encounterArrived_captureCounter.
  - destruct (timers s !! n) as [[d task]|]; [|done].
    destruct task; cbn [runTask].
    + by rewrite resolveCapture_pokedex, resolveCapture_captureCounter.
    + by apply finalizeCapture_counter_le.
    + unfold escape.
      rewrite encounterRandom_pokedex, encounterRandom_captureCounter. by simpl_state.
    + unfold flee. by simpl_state.
    + unfold nextEncounter.
      rewrite encounterRandom_pokedex, encounterRandom_captureCounter. by simpl_state.
    + by rewrite encounterRandom_pokedex, encounterRandom_captureCounter.
  - unfold watchdog. case_match; by simpl_state.
Qed.

(** X13. The capture counter never runs ahead of the Pokédex: along every
    sequence of events of the resolver (import and reset apart, which
    replace the Pokédex and keep the counter), the counter is at most the
    number of entries marked caught, the figure [updateStats()] displays; and
    a completed finalisation moves the two together. *)
Theorem counter_at_most_caught_entries env evs s :
  forallb resolverEvent evs = true →
  captureCounter s ≤ Z.of_nat (caughtCount (pokedex s)) →
  captureCounter (run env evs s) ≤ Z.of_nat (caughtCount (pokedex (run env evs s)))
  ∧ ∀ id now enc,
      currentEncounter s = Some enc →
      Z.of_nat (caughtCount (pokedex (finalizeCapture env id now s))) - Z.of_nat (caughtCount (pokedex s))
      = captureCounter (finalizeCapture env id now s) - captureCounter s.
Proof.
  intros Hevs Hle. split.
  - revert s Hle. induction evs as [|ev evs IH]; intros s Hle; [done|].
    cbn in Hevs. apply andb_prop in Hevs as [Hev Hevs].
    cbn [run]. apply IH; [done|]. by apply step_counter_le.
  - intros id now enc Henc.
    destruct (finalizeCapture_counts env id now s enc Henc) as (-> & _).
    rewrite (finalizeCapture_pokedex env id now s enc Henc).
    rewrite caughtCount_insert_caught by apply capturedRecord_caught.
    unfold firstCapture. destruct (alreadyCaught (pokedex s) id); cbn [negb]; lia.
Qed.

Lemma counter_at_most_caught_entries_witness :
  let s' := run demoEnv demoRecapture scenarioCaught in
  (forallb resolverEvent demoRecapture = true
   ∧ captureCounter scenarioCaught ≤ Z.of_nat (caughtCount (pokedex scenarioCaught)))
  ∧ captureCounter s' ≤ Z.of_nat (caughtCount (pokedex s')).
Proof.
  assert (Hstart : captureCounter scenarioCaught
                   ≤ Z.of_nat (caughtCount (pokedex scenarioCaught)))
    by by vm_compute.
  split; [split; [reflexivity|exact Hstart]|].
  destruct (counter_at_most_caught_entries demoEnv demoRecapture scenarioCaught
              eq_refl Hstart) as [Hle _].
  exact Hle.
Defined.

(** ** The inventory panel *)

(** X14. The panel and the capture handler agree: a finite item is shown
    disabled exactly when an attempt with it is refused.  When the great ball
    (or the ultra ball) is shown disabled, choosing it gives the notice
    "Sem bolas desse tipo!" and keeps the inventory; when it is shown
    enabled, the attempt is accepted and costs one unit. *)
Theorem disabled_item_is_refused env s enc (ball : string) :
  isProcessing s = false →
  currentEncounter s = Some enc →
  ball = "greatball" ∨ ball = "ultraball" →
  let view := renderInventory (inventory s) in
  let disabled := if String.eqb ball "greatball" then greatball_disabled view
                  else ultraball_disabled view in
  let s' := tryCatch env (Some ball) s in
  if disabled
  then isProcessing s' = false
       ∧ toast s' = "Sem bolas desse tipo!" :: toast s
       ∧ inventory s' = inventory s
       ∧ timers s' = timers s
  else isProcessing s' = true
       ∧ ballCount (inventory s') ball = ballCount (inventory s) ball - 1
       ∧ length (timers s') = S (length (timers s)).
Proof.
  intros Hidle Henc Hball. cbn zeta.
  assert (Hdisabled :
            (if String.eqb ball "greatball"
             then greatball_disabled (renderInventory (inventory s))
             else ultraball_disabled (renderInventory (inventory s)))
            = Z.leb (ballCount (inventory s) ball) 0)
    by by destruct Hball as [-> | ->].
  rewrite Hdisabled.
  assert (Hsel : chosenBall (Some ball) = ball) by by destruct Hball as [-> | ->].
  assert (Hfinite : String.eqb ball "pokeball" = false) by by destruct Hball as [-> | ->].
  unfold tryCatch. rewrite Hidle, Henc, Hsel. cbn zeta. rewrite Hfinite. cbn [negb].
  simpl_state.
  destruct (Z.leb (ballCount (inventory s) ball) 0) eqn:Hzero; simpl_state.
  - done.
  - apply Z.leb_gt in Hzero. split_and!; [done| |].
    + unfold ballCount at 1. rewrite lookup_insert_eq. cbn. lia.
    + rewrite length_app. cbn. lia.
Qed.

Lemma disabled_item_is_refused_witness :
  let s := run demoEnv demoThrows (demoState false false) in
  let s0 := step demoEnv WatchdogFires s in
  (isProcessing s0 = false ∧ greatball_disabled (renderInventory (inventory s0)) = true)
  ∧ isProcessing (tryCatch demoEnv (Some "greatball") s0) = false
  ∧ toast (tryCatch demoEnv (Some "greatball") s0) = "Sem bolas desse tipo!" :: toast s0.
Proof.
  split; [split; reflexivity|].
  pose proof (disabled_item_is_refused demoEnv
                (step demoEnv WatchdogFires (run demoEnv demoThrows (demoState false false)))
                (demoEncounter false false) "greatball" eq_refl eq_refl
                (or_introl eq_refl)) as H.
  destruct H as (Hidle & Htoast & _).
  split; [exact Hidle|exact Htoast].
Defined.

(** ** The detail dialog *)

(** X15. [showPokemon(id)] asks the catalogue only for an identifier the
    Pokédex has no entry for, and writes the entry when the answer arrives,
    without looking at the Pokédex again.  A capture of the same creature
    that completes in between is therefore overwritten: the entry is no
    longer marked caught and has lost its timestamp, while the capture
    counter keeps the capture; the other entries are untouched.  The species
    answer that follows only sets the legendary flag. *)
Theorem detail_answer_overwrites_entry env id now data legendary s enc :
  currentEncounter s = Some enc →
  showNeedsFetch id s = true →
  let s1 := finalizeCapture env id now s in
  let s2 := showArrived env id (Some data) s1 in
  let s3 := showSpeciesArrived env id (Some legendary) s2 in
  showNeedsFetch id s1 = false
  ∧ alreadyCaught (pokedex s1) id = true
  ∧ captureCounter s1 = captureCounter s + 1
  ∧ alreadyCaught (pokedex s3) id = false
  ∧ capturedAtOf (pokedex s3) id = None
  ∧ captureCounter s3 = captureCounter s + 1
  ∧ (∀ id' : Z, id' ≠ id → pokedex s3 !! id' = pokedex s !! id').
Proof.
  intros Henc Hfresh. cbn zeta.
  unfold showNeedsFetch in Hfresh.
  destruct (pokedex s !! id) eqn:Hnone; [done|].
  destruct (finalizeCapture_counts env id now s enc Henc) as (Hc & _).
  unfold firstCapture, alreadyCaught in Hc. rewrite Hnone in Hc. cbn in Hc.
  pose proof (finalizeCapture_pokedex env id now s enc Henc) as Hdex.
  unfold showSpeciesArrived, showArrived, showNeedsFetch, alreadyCaught, capturedAtOf.
  simpl_state. rewrite lookup_insert_eq. simpl_state.
  rewrite Hdex, !lookup_insert_eq, capturedRecord_caught.
  split_and!; try done.
  intros id' Hne. by rewrite !lookup_insert_ne.
Qed.

Lemma detail_answer_overwrites_entry_witness :
  let s := demoState false false in
  let s1 := finalizeCapture demoEnv 150 "2024-05-01T10:00:00.000Z" s in
  let s3 := showSpeciesArrived demoEnv 150 (Some true)
              (showArrived demoEnv 150 (Some demoAnswer) s1) in
  showNeedsFetch 150 s = true
  ∧ alreadyCaught (pokedex s1) 150 = true
  ∧ alreadyCaught (pokedex s3) 150 = false
  ∧ captureCounter s3 = 1.
Proof.
  split; [reflexivity|].
  destruct (detail_answer_overwrites_entry demoEnv 150 "2024-05-01T10:00:00.000Z"
              demoAnswer true (demoState false false) (demoEncounter false false)
              eq_refl eq_refl) as (_ & H1 & _ & H3 & _ & Hc & _).
  split; [exact H1|]. split; [exact H3|exact Hc].
Defined.

(** ** The grid *)

Lemma ceilDiv_bounds (a b : Z) :
  0 < b → a ≤ ceilDiv a b * b ∧ (ceilDiv a b - 1) * b < a.
Proof.
  intros Hb. unfold ceilDiv.
  pose proof (Z.div_mod (- a) b ltac:(lia)) as Hdm.
  pose proof (Z.mod_pos_bound (- a) b Hb) as Hm.
  nia.
Qed.

Lemma totalPagesOf_bounds (ids : list Z) (pageSize : Z) :
  0 < pageSize →
  1 ≤ totalPagesOf ids pageSize
  ∧ Z.of_nat (length ids) ≤ totalPagesOf ids pageSize * pageSize
  ∧ (ids ≠ [] → (totalPagesOf ids pageSize - 1) * pageSize < Z.of_nat (length ids)).
Proof.
  intros Hps. unfold totalPagesOf.
  destruct (ceilDiv_bounds (Z.of_nat (length ids)) pageSize Hps) as [Hup Hlow].
  split_and!; [lia|nia|].
  intros Hne. assert (0 < Z.of_nat (length ids)) by (destruct ids; [done|cbn; lia]).
  destruct (Z.max_spec 1 (ceilDiv (Z.of_nat (length ids)) pageSize)) as [[_ ->]|[_ ->]];
    lia.
Qed.

(** On indices that are not negative, [slice] is [take] after [drop]. *)
Lemma jsSlice_take_drop {A} (l : list A) (start len : Z) :
  0 ≤ start → 0 ≤ len →
  jsSlice l start (start + len) = take (Z.to_nat len) (drop (Z.to_nat start) l).
Proof.
  intros Hs Hl. unfold jsSlice.
  destruct (Z.ltb_spec start 0) as [?|_]; [lia|].
  destruct (Z.ltb_spec (start + len) 0) as [?|_]; [lia|].
  destruct (Z.le_gt_cases start (Z.of_nat (length l))) as [Hin|Hout].
  - rewrite (Z.min_l start) by lia.
    destruct (Z.le_gt_cases (start + len) (Z.of_nat (length l))) as [Hin2|Hout2].
    + rewrite Z.min_l by lia. f_equal. lia.
    + rewrite Z.min_r by lia.
      rewrite !take_ge; [done|rewrite length_drop; lia..].
  - rewrite !Z.min_r by lia. rewrite Z.sub_diag. cbn [Z.to_nat take].
    rewrite (drop_ge l (Z.to_nat start)) by lia. by rewrite take_nil.
Qed.

Lemma pageSlice_take_drop (ids : list Z) (pageSize page : Z) :
  0 < pageSize → 1 ≤ page →
  pageSlice ids pageSize page
  = take (Z.to_nat pageSize) (drop (Z.to_nat (page - 1) * Z.to_nat pageSize) ids).
Proof.
  intros Hps Hp. unfold pageSlice.
  rewrite jsSlice_take_drop by nia. do 2 f_equal. nia.
Qed.

Lemma chunks_concat {A} (l : list A) (size n : nat) :
  concat (map (λ i : nat, take size (drop (i * size) l)) (seq 0 n)) = take (n * size) l.
Proof.
  induction n as [|n IH]; [done|].
  rewrite seq_S, map_app, concat_app, IH. cbn [map concat plus].
  rewrite app_nil_r, take_take_drop. f_equal. lia.
Qed.

(** X17. The pages of the grid cut the listed identifiers into consecutive
    runs of [pageSize] cells: put one after the other, the pages 1 to
    [totalPages] give the list again, so that every listed identifier is on
    exactly one page; there is always at least one page, and the last page
    is never empty unless nothing is listed. *)
Theorem pages_partition_listed_ids env allCount d inp :
  0 < pageSizeOf inp →
  let ids := listedIds env allCount d inp in
  let pageSize := pageSizeOf inp in
  let totalPages := totalPagesOf ids pageSize in
  1 ≤ totalPages
  ∧ concat (map (pageSlice ids pageSize) (seqZ 1 totalPages)) = ids
  ∧ (ids ≠ [] → pageSlice ids pageSize totalPages ≠ [])
  ∧ (∀ page : Z, 1 ≤ page →
     Z.of_nat (length (pageSlice ids pageSize page)) ≤ pageSize).
Proof.
  intros Hps. cbn zeta.
  set (ids := listedIds env allCount d inp). set (ps := pageSizeOf inp) in *.
  destruct (totalPagesOf_bounds ids ps Hps) as (Hone & Hcover & Hlast).
  split_and!; [done| | |].
  - unfold seqZ. rewrite <- list_fmap_compose.
    rewrite (list_fmap_ext _ (λ i : nat, take (Z.to_nat ps) (drop (i * Z.to_nat ps) ids))
               (seq 0 (Z.to_nat (totalPagesOf ids ps))) ).
    + change (fmap ?f ?l) with (map f l).
      rewrite chunks_concat. apply take_ge. nia.
    + intros i x _. cbn. rewrite pageSlice_take_drop by lia.
      do 2 f_equal. lia.
  - intros Hne. rewrite pageSlice_take_drop by lia.
    specialize (Hlast Hne).
    intros Hnil. apply (f_equal length) in Hnil.
    rewrite length_take, length_drop in Hnil. cbn in Hnil. nia.
  - intros page Hp. rewrite pageSlice_take_drop by lia.
    rewrite length_take. lia.
Qed.

Lemma pages_partition_listed_ids_witness :
  let ids := listedIds demoEnv 151 ∅ demoGrid in
  0 < pageSizeOf demoGrid
  ∧ totalPagesOf ids 48 = 4
  ∧ concat (map (pageSlice ids 48) (seqZ 1 (totalPagesOf ids 48))) = ids
  ∧ pageSlice ids 48 4 = [145; 146; 147; 148; 149; 150; 151].
Proof.
  split; [reflexivity|]. split; [by vm_compute|].
  destruct (pages_partition_listed_ids demoEnv 151 ∅ demoGrid eq_refl) as (_ & Hcat & _).
  split; [exact Hcat|by vm_compute].
Defined.

Lemma renderPokedex_in_range env allCount d inp page :
  1 ≤ page →
  1 ≤ view_page (renderPokedex env allCount d inp page)
    ≤ view_totalPages (renderPokedex env allCount d inp page).
Proof.
  intros Hp. unfold renderPokedex. cbn.
  assert (1 ≤ totalPagesOf (listedIds env allCount d inp) (pageSizeOf inp))
    by (unfold totalPagesOf; lia).
  destruct (Z.ltb_spec (totalPagesOf (listedIds env allCount d inp) (pageSizeOf inp)) page);
    lia.
Qed.

(** X18. The page variable never leaves the pages that exist: from a page
    number of at least 1, whatever buttons are pressed and whatever the
    inputs of the page are at each press, the page is at least 1, and every
    rendering leaves it at most the number of pages it computed.  "Next" on
    the last page and "previous" on the first page stay where they are. *)
Theorem page_stays_in_range env allCount d acts page :
  1 ≤ page →
  1 ≤ runGrid env allCount d acts page
  ∧ (∀ a inp,
       let view := renderPokedex env allCount d inp (applyGridAction a page) in
       1 ≤ view_page view ≤ view_totalPages view)
  ∧ (∀ inp,
       page = view_totalPages (renderPokedex env allCount d inp page) →
       view_page (renderPokedex env allCount d inp (applyGridAction NextPage page)) = page)
  ∧ (∀ inp,
       page = 1 →
       view_page (renderPokedex env allCount d inp (applyGridAction PrevPage page)) = 1).
Proof.
  intros Hp.
  assert (Hact : ∀ a q, 1 ≤ q → 1 ≤ applyGridAction a q)
    by (intros [] q Hq; cbn; lia).
  split_and!.
  - revert page Hp. induction acts as [|[a inp] rest IH]; intros page Hp; [done|].
    cbn [runGrid]. apply IH. by apply renderPokedex_in_range, Hact.
  - intros a inp. cbn zeta. by apply renderPokedex_in_range, Hact.
  - intros inp Hlast. unfold renderPokedex in *. cbn in *.
    destruct (Z.ltb_spec (totalPagesOf (listedIds env allCount d inp) (pageSizeOf inp))
                (page + 1)); lia.
  - intros inp ->. unfold renderPokedex. cbn.
    assert (1 ≤ totalPagesOf (listedIds env allCount d inp) (pageSizeOf inp))
      by (unfold totalPagesOf; lia).
    change (Z.max 1 (1 - 1)) with 1.
    destruct (Z.ltb_spec (totalPagesOf (listedIds env allCount d inp) (pageSizeOf inp)) 1);
      lia.
Qed.

Lemma page_stays_in_range_witness :
  let acts := [(NextPage, demoGrid); (NextPage, demoGrid); (NextPage, demoGrid);
               (NextPage, demoGrid); (NextPage, demoGrid); (PrevPage, demoGrid)] in
  (1:Z) ≤ 1
  ∧ 1 ≤ runGrid demoEnv 151 ∅ acts 1
  ∧ runGrid demoEnv 151 ∅ acts 1 = 3.
Proof.
  split; [lia|].
  destruct (page_stays_in_range demoEnv 151 ∅
              [(NextPage, demoGrid); (NextPage, demoGrid); (NextPage, demoGrid);
               (NextPage, demoGrid); (NextPage, demoGrid); (PrevPage, demoGrid)] 1
              ltac:(lia)) as [Hone _].
  split; [exact Hone|by vm_compute].
Defined.

Lemma pretty_N_go_length (x : N) (s : string) :
  (String.length s ≤ String.length (pretty_N_go x s))%nat.
Proof.
  revert s. induction (N.lt_wf_0 x) as [x _ IH]; intros s.
  destruct (decide (0 < x)%N) as [Hx|Hx].
  - rewrite pretty_N_go_step by done.
    etrans; [|apply IH; by apply N.div_lt]. cbn. lia.
  - replace x with 0%N by lia. by rewrite pretty_N_go_0.
Qed.

Lemma pretty_N_nonempty (x : N) : pretty x ≠ "".
Proof.
  unfold pretty, pretty_N. destruct (decide (x = 0)%N) as [->|Hx]; [done|].
  rewrite pretty_N_go_step by lia.
  intros Hempty. apply (f_equal String.length) in Hempty.
  pose proof (pretty_N_go_length (x `div` 10)%N
                (String (pretty_N_char (x `mod` 10)) "")) as Hlen.
  rewrite Hempty in Hlen. cbn in Hlen. lia.
Qed.

(** [String(id)] is never the empty string. *)
Lemma pretty_Z_nonempty (x : Z) : pretty x ≠ "".
Proof.
  destruct x as [|q|q]; [done| |done].
  apply (pretty_N_nonempty (N.pos q)).
Qed.

Lemma prefix_same (s : string) : String.prefix s s = true.
Proof.
  induction s as [|c s IH]; [done|]. cbn. by destruct (ascii_dec c c).
Qed.

Lemma includes_same (s : string) : includes s s = true.
Proof. destruct s as [|c s]; [done|]. cbn [includes]. by rewrite prefix_same. Qed.

Lemma listedIds_spec env allCount d inp (id : Z) :
  id ∈ listedIds env allCount d inp
  ↔ 1 ≤ id ≤ allCount
    ∧ (query inp = "" ∨ matchesQuery env d (query inp) id = true)
    ∧ (typeValue inp = "" ∨ matchesType d (typeValue inp) id = true).
Proof.
  unfold listedIds.
  destruct (String.eqb_spec (query inp) "") as [Hq|Hq];
    destruct (String.eqb_spec (typeValue inp) "") as [Ht|Ht];
    rewrite ?list_elem_of_In, ?filter_In, <- ?list_elem_of_In, elem_of_seqZ;
    intuition (first [lia | congruence | done]).
Qed.

Lemma pageSlice_subseteq (ids : list Z) (pageSize page : Z) :
  pageSlice ids pageSize page ⊆ ids.
Proof.
  unfold pageSlice, jsSlice. etrans; [apply subseteq_take|apply subseteq_drop].
Qed.

(** X19. Searching for a number finds it: when the search text is the
    decimal form of an identifier of the catalogue and no type is selected,
    that identifier is listed, whether the Pokédex knows the creature or
    not; and whatever the search text, the type and the page, every cell of
    the grid is an identifier between 1 and [allCount] that passes the
    filters in force. *)
Theorem search_by_number_finds_it env allCount d inp page (id : Z) :
  1 ≤ id ≤ allCount →
  query inp = pretty id →
  typeValue inp = "" →
  id ∈ listedIds env allCount d inp
  ∧ ∀ cell : Z,
      cell ∈ view_cells (renderPokedex env allCount d inp page) →
      1 ≤ cell ≤ allCount ∧ matchesQuery env d (pretty id) cell = true.
Proof.
  intros Hid Hq Ht.
  split.
  - apply listedIds_spec. split; [done|]. split; [|by left].
    right. rewrite Hq. unfold matchesQuery.
    destruct (d !! id) as [p|]; [|apply includes_same].
    destruct (String.eqb (p_name p) ""); [apply includes_same|].
    rewrite String.eqb_refl. apply orb_true_r.
  - intros cell Hcell. unfold renderPokedex in Hcell. cbn in Hcell.
    apply pageSlice_subseteq, listedIds_spec in Hcell as (Hrange & Hquery & _).
    split; [done|]. rewrite Hq in Hquery.
    destruct Hquery as [Hempty|Hquery]; [by destruct (pretty_Z_nonempty id)|done].
Qed.

Lemma search_by_number_finds_it_witness :
  let inp := {| pageSizeValue := None; query := "25"; typeValue := "" |} in
  ((1 ≤ 25 ≤ 151) ∧ query inp = pretty (25 : Z))
  ∧ 25 ∈ listedIds demoEnv 151 ∅ inp
  ∧ listedIds demoEnv 151 ∅ inp = [25; 125].
Proof.
  split; [split; [lia|reflexivity]|].
  destruct (search_by_number_finds_it demoEnv 151 ∅
              {| pageSizeValue := None; query := "25"; typeValue := "" |} 1 25
              ltac:(lia) eq_refl eq_refl) as [Hin _].
  split; [exact Hin|by vm_compute].
Defined.

(** X20. With a type selected, the grid lists only creatures the Pokédex
    has an entry for, and only those whose entry carries that type: an
    identifier without an entry is never shown under a type filter. *)
Theorem type_filter_lists_known_entries env allCount d inp page (cell : Z) :
  typeValue inp ≠ "" →
  cell ∈ view_cells (renderPokedex env allCount d inp page) →
  1 ≤ cell ≤ allCount
  ∧ ∃ p, d !! cell = Some p ∧ typeValue inp ∈ p_types p.
Proof.
  intros Hty Hcell. unfold renderPokedex in Hcell. cbn in Hcell.
  apply pageSlice_subseteq, listedIds_spec in Hcell as (Hrange & _ & Htype).
  split; [done|].
  destruct Htype as [?|Htype]; [done|].
  unfold matchesType in Htype.
  destruct (d !! cell) as [p|]; [|done].
  exists p. split; [done|]. by apply bool_decide_eq_true in Htype.
Qed.

Lemma type_filter_lists_known_entries_witness :
  let inp := {| pageSizeValue := Some 48; query := ""; typeValue := "psychic" |} in
  let view := renderPokedex demoEnv 151 (pokedex scenarioCaught) inp 1 in
  (typeValue inp ≠ "" ∧ 150 ∈ view_cells view)
  ∧ 1 ≤ 150 ≤ 151
  ∧ ∃ p, pokedex scenarioCaught !! 150 = Some p ∧ "psychic" ∈ p_types p.
Proof.
  assert (Hcell : 150 ∈ view_cells
                    (renderPokedex demoEnv 151 (pokedex scenarioCaught)
                       {| pageSizeValue := Some 48; query := ""; typeValue := "psychic" |} 1)).
  { vm_compute. apply list_elem_of_here. }
  split; [split; [discriminate|exact Hcell]|].
  exact (type_filter_lists_known_entries demoEnv 151 (pokedex scenarioCaught)
           {| pageSizeValue := Some 48; query := ""; typeValue := "psychic" |} 1 150
           ltac:(discriminate) Hcell).
Defined.

(** ** Import of any file *)

Lemma filterThrowing_throws (test : Z → option bool) (ids : list Z) :
  ids ≠ [] → (∀ id, test id = None) → filterThrowing test ids = None.
Proof. destruct ids as [|id rest]; [done|]. intros _ Hthrow. cbn. by rewrite Hthrow. Qed.


Lemma seqZ_nonempty (n : Z) : 1 ≤ n → seqZ 1 n ≠ [].
Proof.
  intros Hn Hnil. apply (f_equal length) in Hnil.
  rewrite length_seqZ in Hnil. cbn in Hnil. lia.
Qed.

Lemma pageSlice_nonempty (ids : list Z) (pageSize page : Z) :
  0 < pageSize → 1 ≤ page → ids ≠ [] →
  let totalPages := totalPagesOf ids pageSize in
  pageSlice ids pageSize (if Z.ltb totalPages page then totalPages else page) ≠ [].
Proof.
  intros Hps Hp Hne. cbn zeta.
  destruct (totalPagesOf_bounds ids pageSize Hps) as (Hone & _ & Hlast).
  specialize (Hlast Hne).
  set (tp := totalPagesOf ids pageSize) in *.
  assert (Hrange : 1 ≤ (if Z.ltb tp page then tp else page) ≤ tp)
    by (destruct (Z.ltb_spec tp page); lia).
  set (q := if Z.ltb tp page then tp else page) in *.
  rewrite pageSlice_take_drop by lia.
  intros Hnil. apply (f_equal length) in Hnil.
  rewrite length_take, length_drop in Hnil. cbn in Hnil. nia.
Qed.

Lemma saveLastResort_spec (st : gmap string Slot) (toasts : list string) :
  let r := saveLastResort st toasts in
  r.1 !! STORAGE_KEY = None
  ∧ r.1 !! (STORAGE_KEY ++ "_inv") = None
  ∧ (∀ k, k ≠ STORAGE_KEY → k ≠ STORAGE_KEY ++ "_inv" → r.1 !! k = st !! k)
  ∧ r.2 = "Erro: armazenamento do navegador cheio. Dados antigos podem ter sido apagados."
            :: toasts.
Proof.
  cbn. split_and!; [| | |done].
  - by rewrite lookup_delete_ne, lookup_delete_eq.
  - by rewrite lookup_delete_eq.
  - intros k H1 H2. by rewrite !lookup_delete_ne.
Qed.

Lemma saveMeta_throwing ctx v counter st toasts :
  updateStatsThrows v = true →
  saveMeta ctx v counter st toasts = saveLastResort st toasts.
Proof.
  unfold updateStatsThrows, saveMeta. destruct (objectValues v) as [ps|]; [|done].
  by intros ->.
Qed.

(** When [updateStats()] throws, [save()] goes down to its last resort,
    whatever the storage accepts on the way. *)
Lemma saveValue_throwing ctx v counter st toasts :
  updateStatsThrows v = true →
  ∃ st', saveValue ctx v counter st toasts = saveLastResort st' toasts
         ∧ ∀ k, k ≠ STORAGE_KEY → st' !! k = st !! k.
Proof.
  intros Hthrow. unfold saveValue, saveCompact. rewrite Hthrow.
  repeat case_match; rewrite saveMeta_throwing by done; eexists; (split; [done|]);
    intros k Hk; by rewrite ?lookup_insert_ne.
Qed.

Lemma renderPokedexThrows_null env ctx :
  1 ≤ grid_allCount ctx → 1 ≤ grid_page ctx → 0 < pageSizeOf (grid_inputs ctx) →
  renderPokedexThrows env ctx JNull = true.
Proof.
  intros Hcount Hpage Hsize. unfold renderPokedexThrows. cbv zeta.
  pose proof (seqZ_nonempty _ Hcount) as Hids.
  destruct (String.eqb (query (grid_inputs ctx)) "").
  - destruct (String.eqb (typeValue (grid_inputs ctx)) "").
    + pose proof (pageSlice_nonempty _ _ _ Hsize Hpage Hids) as Hcells.
      cbn zeta in Hcells.
      destruct (pageSlice _ _ _) as [|cell cells]; [done|]. done.
    + by rewrite filterThrowing_throws.
  - by rewrite filterThrowing_throws.
Qed.

(** C9. The file whose content is [null] is not a Pokédex, and [JSON.parse]
    accepts it.  Line 545 assigns it to [pokedex] before anything looks at
    it: after the import the variable holds [null], [save()] has gone down to
    its last resort, so that the storage has neither the Pokédex nor the
    inventory any more, and, since [renderPokedex()] throws on the first cell
    it builds, the notice is the one of an invalid file.  The file is
    announced as refused, and the Pokédex is gone all the same. *)
Theorem import_of_null_destroys_pokedex env ctx text s :
  JSON_parse env text = Some JNull →
  let r := importPokedex env ctx text s in
  imported_pokedex r = Some JNull
  ∧ imported_storage r !! STORAGE_KEY = None
  ∧ imported_storage r !! (STORAGE_KEY ++ "_inv") = None
  ∧ tail (imported_toast r)
    = "Erro: armazenamento do navegador cheio. Dados antigos podem ter sido apagados."
        :: toast s
  ∧ (1 ≤ grid_allCount ctx → 1 ≤ grid_page ctx → 0 < pageSizeOf (grid_inputs ctx) →
     hd_error (imported_toast r) = Some "Arquivo inválido").
Proof.
  intros Hparse. cbn zeta. unfold importPokedex. rewrite Hparse. cbn zeta.
  destruct (saveValue_throwing ctx JNull (captureCounter s) (Typed <$> localStorage s)
              (toast s) eq_refl) as (st' & -> & _).
  destruct (saveLastResort_spec st' (toast s)) as (Hkey & Hinv & _ & Htoast).
  cbn [imported_pokedex imported_storage imported_toast tail hd_error].
  split_and!; [done|done|done|done|].
  intros Hcount Hpage Hsize. by rewrite renderPokedexThrows_null.
Qed.

Lemma import_of_null_destroys_pokedex_witness :
  let r := importPokedex nullEnv demoContext "null" scenarioCaught in
  JSON_parse nullEnv "null" = Some JNull
  ∧ alreadyCaught (pokedex scenarioCaught) 150 = true
  ∧ (∃ d, localStorage scenarioCaught !! STORAGE_KEY = Some (StoredPokedex d))
  ∧ imported_pokedex r = Some JNull
  ∧ imported_storage r !! STORAGE_KEY = None
  ∧ hd_error (imported_toast r) = Some "Arquivo inválido".
Proof.
  split; [reflexivity|]. split; [reflexivity|].
  split; [eexists; by vm_compute|].
  destruct (import_of_null_destroys_pokedex nullEnv demoContext "null" scenarioCaught
              eq_refl) as (Hdex & Hkey & _ & _ & Hnotice).
  split; [exact Hdex|]. split; [exact Hkey|].
  apply Hnotice; [by vm_compute|by vm_compute|by vm_compute].
Defined.









(** X21. A file that [JSON.parse] rejects is refused with the notice
    "Arquivo inválido" and nothing else happens: [pokedex] is not assigned
    and the storage is not written.  This is the event [FileRead None] of
    the page. *)
Theorem import_unparseable_refused env ctx text s :
  JSON_parse env text = None →
  let r := importPokedex env ctx text s in
  let s' := step env (FileRead None) s in
  imported_pokedex r = None
  ∧ imported_storage r = Typed <$> localStorage s
  ∧ imported_toast r = "Arquivo inválido" :: toast s
  ∧ toast s' = imported_toast r
  ∧ pokedex s' = pokedex s
  ∧ localStorage s' = localStorage s
  ∧ inventory s' = inventory s
  ∧ captureCounter s' = captureCounter s.
Proof.
  intros Hparse. cbn zeta. unfold importPokedex. rewrite Hparse. cbn. done.
Qed.

Lemma import_unparseable_refused_witness :
  let r := importPokedex demoEnv demoContext "{not json" scenarioCaught in
  JSON_parse demoEnv "{not json" = None
  ∧ imported_pokedex r = None
  ∧ imported_storage r = Typed <$> localStorage scenarioCaught
  ∧ imported_toast r = "Arquivo inválido" :: toast scenarioCaught.
Proof.
  split; [reflexivity|].
  destruct (import_unparseable_refused demoEnv demoContext "{not json" scenarioCaught
              eq_refl) as (Hdex & Hst & Hnotice & _).
  split; [exact Hdex|]. split; [exact Hst|exact Hnotice].
Defined.


